(** * turnup: the update orchestration pipeline

    A shallow embedding of [src/actions/update.js] and of the GitHub
    adapter class (both versions found in the repository), with the
    theorems that settle the specification's claims about them.

    JavaScript [async] functions are embedded as trees of externally
    visible operations ([Async]); a call whose promise is not awaited is a
    [Detach] node.  Plain objects reached through a reference (the decoded
    manifest) live in an explicit heap, so aliasing is visible. *)

From stdpp Require Import gmap strings list fin_maps pretty.

Set Implicit Arguments.

(** ** Values *)

(** Thrown values.  [err.statusCode] is defined on HTTP failures only. *)
Inductive JsError : Type :=
| HttpError (status : nat)
| TypeError (message : string)
| SyntaxError (message : string)
| NoRepositoriesFoundError
| Failure (message : string).

Definition statusCode (err : JsError) : option nat :=
  match err with
  | HttpError s => Some s
  | _ => None
  end.

(** A decoded [package.json].  The two dependency maps are JS objects used
    as maps; either may be missing from the file. *)
Record Manifest : Type := mkManifest {
  manifest_name : string;
  dependencies : option (gmap string string);
  devDependencies : option (gmap string string)
}.

(** Address of a manifest object in the heap. *)
Definition loc : Type := nat.

(** [{ decoded: JSON.parse(...), sha: contents.sha }]; [decoded] is a
    reference to a mutable plain object. *)
Record PackageDefinition : Type := mkPackageDefinition {
  decoded : loc;
  sha : string
}.

Record DependencyRelationship : Type := mkDependencyRelationship {
  type : string;
  packageName : string;
  packageVersion : string;
  currentVersion : string
}.

Record LockfileEntity : Type := mkLockfileEntity {
  packageManager : string;
  lockfileContent : string
}.

(** The immutable record of [domain/repository-entity]: [set] returns a
    new record, absent fields read as [undefined]. *)
Record RepositoryEntity : Type := mkRepositoryEntity {
  name : string;
  fullName : string;
  defaultBranch : string;
  packageDefinition : option PackageDefinition;
  dependencyRelationship : option DependencyRelationship;
  lockfileEntity : option LockfileEntity
}.

Definition set_packageDefinition (pd : PackageDefinition) (r : RepositoryEntity)
  : RepositoryEntity :=
  {| name := name r; fullName := fullName r; defaultBranch := defaultBranch r;
     packageDefinition := Some pd;
     dependencyRelationship := dependencyRelationship r;
     lockfileEntity := lockfileEntity r |}.

Definition set_dependencyRelationship (rel : DependencyRelationship)
  (r : RepositoryEntity) : RepositoryEntity :=
  {| name := name r; fullName := fullName r; defaultBranch := defaultBranch r;
     packageDefinition := packageDefinition r;
     dependencyRelationship := Some rel;
     lockfileEntity := lockfileEntity r |}.

Definition set_lockfileEntity (lf : LockfileEntity) (r : RepositoryEntity)
  : RepositoryEntity :=
  {| name := name r; fullName := fullName r; defaultBranch := defaultBranch r;
     packageDefinition := packageDefinition r;
     dependencyRelationship := dependencyRelationship r;
     lockfileEntity := Some lf |}.

(** Payloads of the hosting service. *)
Record RawRepo : Type := mkRawRepo {
  raw_name : string;
  full_name : string;
  default_branch : string
}.

(** What a repository listing call resolves to: an array, or anything else. *)
Inductive Listing : Type :=
| JsArray (items : list RawRepo)
| NotAnArray.

Record Contents : Type := mkContents {
  content : string;
  contents_sha : string
}.

Record PullRequest : Type := mkPullRequest {
  body : string;
  title : string
}.

(** ** Operations visible outside the program *)

(** Calls that return a promise.  The first group is [api.js] of the
    GitHub adapter, the second the collaborators of [update.js], the
    third the methods of a platform adapter left abstract. *)
Inductive AsyncOp : Type -> Type :=
| getRepo (repo : string) : AsyncOp RawRepo
| getUserRepos (owner : string) : AsyncOp Listing
| getOrgRepos (owner : string) : AsyncOp Listing
| getContents (repo path : string) : AsyncOp Contents
| getRef (repo branch : string) : AsyncOp string
| createRef (repo branch fromSha : string) : AsyncOp unit
| createContents (repo branch path currentSha text message : string)
    : AsyncOp unit
| createPull (repo base head prTitle prBody : string) : AsyncOp unit
| parsePackage (packageString : string) : AsyncOp (string * string)
| formatPackage (packageDef : Manifest) : AsyncOp string
| lockfile_create (manifestText manager : string) (registry : option string)
    : AsyncOp string
| lockfile_update (manifestText manager : string) (registry : option string)
    : AsyncOp string
| inquirer_prompt (choices : list string) : AsyncOp (list nat)
| any_fetchRepositories (names : list string) : AsyncOp (list RepositoryEntity)
| any_fetchRepositoriesByOwner (owner : string)
    : AsyncOp (list RepositoryEntity)
| any_fetchPackageDefinitions (repos : list RepositoryEntity)
    : AsyncOp (list RepositoryEntity)
| any_fetchLockfileDefinition (repo : RepositoryEntity)
    : AsyncOp (option LockfileEntity)
| any_createBranch (repo : RepositoryEntity) (branch : string) : AsyncOp unit
| any_commitPackageDefinition (repo : RepositoryEntity)
    (branch text : string) (lockFile : option string) (message : string)
    : AsyncOp unit
| any_createPullRequest (repo : RepositoryEntity) (branch : string)
    (pr : PullRequest) : AsyncOp unit.

(** Synchronous effects: logging, and the heap of manifest objects.
    [notify] is the helper of [logging.js], with its first two arguments
    (the text styling of [chalk] is left out of the messages);
    [JSON_parse] stands for the base64 decoding followed by [JSON.parse]
    and yields a reference to the new object. *)
Inductive SyncOp : Type -> Type :=
| notify (action message : string) : SyncOp unit
| console_error (err : JsError) : SyncOp unit
| JSON_parse (text : string) : SyncOp loc
| deref (l : loc) : SyncOp Manifest
| assign (l : loc) (m : Manifest) : SyncOp unit
| heap_view : SyncOp (list Manifest).

(** ** Asynchronous programs *)

(** [Halt] ends the process: nothing follows it and no handler catches
    it. *)
Inductive Async (A : Type) : Type :=
| Ret (a : A)
| Throw (err : JsError)
| Halt (action : string) (err : JsError)
| Sync (B : Type) (op : SyncOp B) (k : JsError + B -> Async A)
| Await (B : Type) (op : AsyncOp B) (k : JsError + B -> Async A)
| Detach (child : Async unit) (k : Async A).

Arguments Ret {A} a.
Arguments Throw {A} err.
Arguments Halt {A} action err.
Arguments Sync {A B} op k.
Arguments Await {A B} op k.
Arguments Detach {A} child k.

Fixpoint bind {A B : Type} (m : Async A) (f : A -> Async B) : Async B :=
  match m with
  | Ret a => f a
  | Throw err => Throw err
  | Halt action err => Halt action err
  | Sync op k => Sync op (fun r => bind (k r) f)
  | Await op k => Await op (fun r => bind (k r) f)
  | Detach child k => Detach child (bind k f)
  end.

Declare Scope async_scope.
Delimit Scope async_scope with async.
Bind Scope async_scope with Async.
Notation "x ← y ; z" := (bind y (fun x => z))
  (at level 20, y at level 100, z at level 200, only parsing) : async_scope.
Notation "x ;; z" := (bind x (fun _ => z))
  (at level 100, z at level 200, only parsing, right associativity)
  : async_scope.
Open Scope async_scope.

(** A settled promise either throws at the [await] or yields its value. *)
Definition settled {A : Type} (r : JsError + A) : Async A :=
  match r with
  | inl err => Throw err
  | inr a => Ret a
  end.

(** Modelled from the spec: [fatal] of [errors.js], which is not among
    the sources.  By sections 4.2, 6 and 7 a fatal condition is reported
    with the triggering error and terminates the run. *)
Definition fatal {A : Type} (action : string) (err : JsError) : Async A :=
  Halt action err.

Definition sync {B : Type} (op : SyncOp B) : Async B := Sync op settled.
Definition await {B : Type} (op : AsyncOp B) : Async B := Await op settled.

(** [try { m } catch (err) { h err }].  The rejection of a promise that
    was never awaited is not delivered to the handler. *)
Fixpoint try_catch {A : Type} (m : Async A) (h : JsError -> Async A)
  : Async A :=
  match m with
  | Ret a => Ret a
  | Throw err => h err
  | Halt action err => Halt action err
  | Sync op k => Sync op (fun r => try_catch (k r) h)
  | Await op k => Await op (fun r => try_catch (k r) h)
  | Detach child k => Detach child (try_catch k h)
  end.

(** ** Running a program *)

Inductive Event : Type :=
| Called (B : Type) (op : AsyncOp B)
| Notified (action message : string)
| Logged (err : JsError)
| Assigned (l : loc) (m : Manifest)
| Exit (action : string) (err : JsError).

Arguments Called {B} op.

(** The world outside the program: what every external call answers, as a
    function of everything observed so far, and what [JSON.parse] (after
    the base64 decoding) makes of a text. *)
Record Env : Type := mkEnv {
  respond : forall B : Type, list Event -> AsyncOp B -> JsError + B;
  parse : string -> JsError + Manifest
}.

Inductive Outcome (A : Type) : Type :=
| Returned (a : A)
| Thrown (err : JsError)
| Exited.

Arguments Returned {A} a.
Arguments Thrown {A} err.
Arguments Exited {A}.

(** [pool] holds the suspended tasks nobody awaits, [unhandled] the
    rejections of such tasks. *)
Record World : Type := mkWorld {
  heap : list Manifest;
  log : list Event;
  pool : list (Async unit);
  unhandled : list JsError
}.

Definition emit (ev : Event) (w : World) : World :=
  {| heap := heap w; log := log w ++ [ev];
     pool := pool w; unhandled := unhandled w |}.

Definition set_heap (h : list Manifest) (w : World) : World :=
  {| heap := h; log := log w; pool := pool w; unhandled := unhandled w |}.

Definition set_pool (p : list (Async unit)) (w : World) : World :=
  {| heap := heap w; log := log w; pool := p; unhandled := unhandled w |}.

Definition reject (err : JsError) (w : World) : World :=
  {| heap := heap w; log := log w; pool := pool w;
     unhandled := unhandled w ++ [err] |}.

Definition do_sync (env : Env) {B : Type} (op : SyncOp B) (w : World)
  : (JsError + B) * World :=
  match op in SyncOp T return (JsError + T) * World with
  | notify action message => (inr tt, emit (Notified action message) w)
  | console_error err => (inr tt, emit (Logged err) w)
  | JSON_parse text =>
      match parse env text with
      | inl err => (inl err, w)
      | inr m => (inr (length (heap w)), set_heap (heap w ++ [m]) w)
      end
  | deref l =>
      match heap w !! l with
      | Some m => (inr m, w)
      | None => (inl (TypeError "dangling reference"), w)
      end
  | assign l m => (inr tt, emit (Assigned l m) (set_heap (<[l:=m]> (heap w)) w))
  | heap_view => (inr (heap w), w)
  end.

Definition do_async (env : Env) {B : Type} (op : AsyncOp B) (w : World)
  : (JsError + B) * World :=
  (respond env (log w) op, emit (Called op) w).

Inductive Slice (A : Type) : Type :=
| Finished (o : Outcome A)
| Suspended (rest : Async A).

Arguments Finished {A} o.
Arguments Suspended {A} rest.

Definition park (s : Slice unit) (w : World) : World :=
  match s with
  | Suspended rest => set_pool (pool w ++ [rest]) w
  | Finished (Thrown err) => reject err w
  | Finished _ => w
  end.

(** Run a task up to and including the call it awaits next.  A detached
    child runs, as in JavaScript, up to its own first [await] before the
    caller goes on. *)
Fixpoint start (env : Env) (A : Type) (p : Async A) (w : World)
  : Slice A * World :=
  match p with
  | Ret a => (Finished (Returned a), w)
  | Throw err => (Finished (Thrown err), w)
  | Halt action err => (Finished Exited, emit (Exit action err) w)
  | Sync op k => let '(r, w') := do_sync env op w in start env (k r) w'
  | Await op k => let '(r, w') := do_async env op w in (Suspended (k r), w')
  | Detach child k =>
      let '(s, w') := start env child w in start env k (park s w')
  end.

Definition spawn (env : Env) (child : Async unit) (w : World) : World :=
  let '(s, w') := start env child w in park s w'.

(** Run the calling task to its end.  Its own awaits resolve before the
    tasks it detached are resumed. *)
Fixpoint exec (env : Env) (A : Type) (p : Async A) (w : World)
  : Outcome A * World :=
  match p with
  | Ret a => (Returned a, w)
  | Throw err => (Thrown err, w)
  | Halt action err => (Exited, emit (Exit action err) w)
  | Sync op k => let '(r, w') := do_sync env op w in exec env (k r) w'
  | Await op k => let '(r, w') := do_async env op w in exec env (k r) w'
  | Detach child k => exec env k (spawn env child w)
  end.

(** Resume the suspended tasks in turn, one awaited call each, oldest
    first. *)
Fixpoint drain (env : Env) (fuel : nat) (w : World) : World :=
  match fuel with
  | O => w
  | S n =>
      match pool w with
      | [] => w
      | task :: rest => drain env n (spawn env task (set_pool rest w))
      end
  end.

Definition run (env : Env) (fuel : nat) (A : Type) (p : Async A) (w : World)
  : Outcome A * World :=
  let '(o, w') := exec env p w in
  match o with
  | Exited => (o, w')
  | _ => (o, drain env fuel w')
  end.

Definition empty_world : World :=
  {| heap := []; log := []; pool := []; unhandled := [] |}.

(** ** Library combinators *)

(** [promisify(async.series)(tasks)]: the tasks run one after the other,
    the first rejection ends the series.  The tasks are (bound) async
    functions; the library waits for the promise a task returns and for
    nothing else. *)
Fixpoint series {A : Type} (tasks : list (Async A)) : Async (list A) :=
  match tasks with
  | [] => Ret []
  | task :: rest => r ← task; rs ← series rest; Ret (r :: rs)
  end.

Definition settle {A : Type} (p : Async A) : Async (JsError + A) :=
  try_catch (a ← p; Ret (inr a)) (fun err => Ret (inl err)).

Fixpoint all_settled {A : Type} (ps : list (Async A))
  : Async (list (JsError + A)) :=
  match ps with
  | [] => Ret []
  | p :: rest => r ← settle p; rs ← all_settled rest; Ret (r :: rs)
  end.

Fixpoint collect {A : Type} (rs : list (JsError + A)) : JsError + list A :=
  match rs with
  | [] => inr []
  | inl err :: _ => inl err
  | inr a :: rest =>
      match collect rest with
      | inl err => inl err
      | inr l => inr (a :: l)
      end
  end.

(** [Promise.all]: every task is carried out, whatever the others do; the
    result is the list of values, or a rejection when one task rejected.
    With several rejections [Promise.all] rejects with the one that
    happens first; the rejection of this definition is the first in list
    order, which is the same when a single task rejects.  Which error a
    rejected [promise_all] carries is therefore only stated, below, of
    runs with one rejection. *)
Definition promise_all {A : Type} (ps : list (Async A)) : Async (list A) :=
  rs ← all_settled ps; settled (collect rs).

(** Reading [o.field] when [o] is [undefined] throws. *)
Definition prop {A : Type} (field : string) (o : option A) : Async A :=
  match o with
  | Some a => Ret a
  | None =>
      Throw (TypeError ("Cannot read property '" +:+ field +:+ "' of undefined"))
  end.

(** ** The platform adapter, as an object whose methods may be missing *)

Module Adapter.
Record t : Type := mk {
  getName : string;
  fetchRepositories : option (list string -> Async (list RepositoryEntity));
  fetchRepositoriesByOwner : option (string -> Async (list RepositoryEntity));
  fetchPackageDefinitions :
    option (list RepositoryEntity -> Async (list RepositoryEntity));
  fetchLockfileDefinition :
    option (RepositoryEntity -> Async (option LockfileEntity));
  createBranch : option (RepositoryEntity -> string -> Async unit);
  commitPackageDefinition :
    option (RepositoryEntity -> string -> string -> option string ->
            string -> Async unit);
  createPullRequest :
    option (RepositoryEntity -> string -> PullRequest -> Async unit)
}.

(** Calling [adapter.method(...)]. *)
Definition invoke {F B : Type} (method : option F) (what : string)
  (call : F -> Async B) : Async B :=
  match method with
  | Some f => call f
  | None => Throw (TypeError ("adapter." +:+ what +:+ " is not a function"))
  end.

(** An adapter that has every method of the contract and whose
    behaviour is left to the environment. *)
Definition any : t :=
  {| getName := "any";
     fetchRepositories := Some (fun names => await (any_fetchRepositories names));
     fetchRepositoriesByOwner :=
       Some (fun owner => await (any_fetchRepositoriesByOwner owner));
     fetchPackageDefinitions :=
       Some (fun repos => await (any_fetchPackageDefinitions repos));
     fetchLockfileDefinition :=
       Some (fun repo => await (any_fetchLockfileDefinition repo));
     createBranch :=
       Some (fun repo branch => await (any_createBranch repo branch));
     commitPackageDefinition :=
       Some (fun repo branch text lockFile message =>
               await (any_commitPackageDefinition repo branch text lockFile
                        message));
     createPullRequest :=
       Some (fun repo branch pr => await (any_createPullRequest repo branch pr))
  |}.
End Adapter.

(** ** The GitHub adapter class *)

(** The class is present twice: [src/adapters/github/adapter.js] and an
    unnamed file.  [createRepositoryEntity], [fetchRepositories],
    [getPackageJson], [createBranch], [commitPackageDefinition] and
    [createPullRequest] read the same in both; [fetchRepositoriesByOwner]
    exists in the unnamed file only, and [fetchPackageDefinitions]
    differs. *)
Module GitHub.

Definition createRepositoryEntity (raw : RawRepo) : RepositoryEntity :=
  {| name := raw_name raw;
     fullName := full_name raw;
     defaultBranch := default_branch raw;
     packageDefinition := None;
     dependencyRelationship := None;
     lockfileEntity := None |}.

Definition fetchRepository (name : string) : Async RawRepo :=
  await (getRepo name).

Definition fetchRepositories (names : list string)
  : Async (list RepositoryEntity) :=
  repositories ← promise_all (fetchRepository <$> names);
  Ret (createRepositoryEntity <$> repositories).

Definition fetchRepositoriesByOwner (owner : string)
  : Async (list RepositoryEntity) :=
  ownerRepos ← await (getUserRepos owner);
  ownerRepos ← match ownerRepos with
               | JsArray (_ :: _) => Ret ownerRepos
               | _ => await (getOrgRepos owner)
               end;
  match ownerRepos with
  | JsArray items => Ret (createRepositoryEntity <$> items)
  | NotAnArray => Throw (TypeError "ownerRepos.map is not a function")
  end.

Definition getPackageJson (repository : RepositoryEntity)
  : Async PackageDefinition :=
  contents ← await (getContents (fullName repository) "package.json");
  object ← sync (JSON_parse (content contents));
  Ret {| decoded := object; sha := contents_sha contents |}.

(** The unnamed file. *)
Definition fetchPackageDefinitions (repositories : list RepositoryEntity)
  : Async (list RepositoryEntity) :=
  promise_all
    ((fun repository =>
        try_catch
          (packageDefinition ← getPackageJson repository;
           Ret (set_packageDefinition packageDefinition repository))
          (fun err =>
             if bool_decide (statusCode err = Some 404)
             then Ret repository
             else Throw err)) <$> repositories).

(** [getRef] stands for the call and the reading of [.object.sha] in its
    answer. *)
Definition createBranch (repository : RepositoryEntity) (branchName : string)
  : Async unit :=
  defaultBranchSha ←
    await (getRef (fullName repository) (defaultBranch repository));
  await (createRef (fullName repository) branchName defaultBranchSha).

(** [packageDefinitionText] is the parameter [packageDefinition] of the
    source, the formatted manifest.  The fifth argument [update.js]
    passes, [message], is not among the parameters of the method.  The
    arguments of the first [bind] are evaluated when [queued] is built,
    [repository.packageDefinition.sha] before the template that reads
    [rel.type]. *)
Definition commitPackageDefinition (repository : RepositoryEntity)
  (branchName packageDefinitionText : string) (lockFile : option string)
  (message : string) : Async unit :=
  let rel := dependencyRelationship repository in
  pd ← prop "sha" (packageDefinition repository);
  rel ← prop "type" rel;
  let queued :=
    [await (createContents (fullName repository) branchName "package.json"
              (sha pd) packageDefinitionText
              ("[turnup] Auto update of " +:+ type rel +:+ " dependency "
               +:+ packageName rel +:+ "@" +:+ packageVersion rel
               +:+ " - package.json"))] in
  queued ←
    match lockFile with
    | Some lockFile =>
        try_catch
          (lockFileRemote ←
             await (getContents (fullName repository) "package-lock.json");
           Ret (queued ++
                [await (createContents (fullName repository) branchName
                          "package-lock.json" (contents_sha lockFileRemote)
                          lockFile
                          ("[turnup] Auto update of " +:+ type rel
                           +:+ " dependency " +:+ packageName rel +:+ "@"
                           +:+ packageVersion rel
                           +:+ " - package-lock.json"))]))
          (fun err =>
             sync (console_error err);;
             if bool_decide (statusCode err ≠ Some 404)
             then Throw err
             else Ret queued)
    | None => Ret queued
    end;
  series queued;; Ret tt.

(** The third argument [update.js] passes is not among the parameters of
    the method; the resolved value is not used by the caller. *)
Definition createPullRequest (repository : RepositoryEntity)
  (branchName : string) (pr : PullRequest) : Async unit :=
  rel ← prop "packageName" (dependencyRelationship repository);
  let depString := packageName rel +:+ "@" +:+ packageVersion rel in
  let title := "Update Dependency - " +:+ depString in
  let body :=
    "Update the package.json dependency for `" +:+ depString
    +:+ "`. This PR was automatically generated by the `turnup` [CLI](https://npmjs.com/turnup)."
    +:+ String (Ascii.ascii_of_nat 10) (String (Ascii.ascii_of_nat 10) EmptyString)
    +:+ "**Note**: formatting may have changed for package.json. It is processed using [format-package](https://www.npmjs.com/package/format-package)." in
  await (createPull (fullName repository) (defaultBranch repository)
           branchName title body).

Definition adapter : Adapter.t :=
  {| Adapter.getName := "GitHub";
     Adapter.fetchRepositories := Some fetchRepositories;
     Adapter.fetchRepositoriesByOwner := Some fetchRepositoriesByOwner;
     Adapter.fetchPackageDefinitions := Some fetchPackageDefinitions;
     Adapter.fetchLockfileDefinition := None;
     Adapter.createBranch := Some createBranch;
     Adapter.commitPackageDefinition := Some commitPackageDefinition;
     Adapter.createPullRequest := Some createPullRequest |}.

End GitHub.

(** [src/adapters/github/adapter.js], where it differs. *)
Module AdapterJs.

Definition fetchPackageDefinitions (repositories : list RepositoryEntity)
  : Async (list RepositoryEntity) :=
  promise_all
    ((fun repository =>
        packageDefinition ← GitHub.getPackageJson repository;
        Ret (set_packageDefinition packageDefinition repository))
     <$> repositories).

Definition adapter : Adapter.t :=
  {| Adapter.getName := "GitHub";
     Adapter.fetchRepositories := Some GitHub.fetchRepositories;
     Adapter.fetchRepositoriesByOwner := None;
     Adapter.fetchPackageDefinitions := Some fetchPackageDefinitions;
     Adapter.fetchLockfileDefinition := None;
     Adapter.createBranch := Some GitHub.createBranch;
     Adapter.commitPackageDefinition := Some GitHub.commitPackageDefinition;
     Adapter.createPullRequest := Some GitHub.createPullRequest |}.

End AdapterJs.

(** ** [packages.filter] *)

Module Packages.

(** The version declared for [targetName] in one dependency map, when
    there is one and it is not the target version. *)
Definition outdated (deps : option (gmap string string))
  (targetName targetVersion : string) : option string :=
  match deps with
  | Some declared =>
      match declared !! targetName with
      | Some current =>
          if bool_decide (current = targetVersion) then None else Some current
      | None => None
      end
  | None => None
  end.

Definition classify (manifest : Manifest) (targetName targetVersion : string)
  : option DependencyRelationship :=
  match outdated (dependencies manifest) targetName targetVersion with
  | Some current =>
      Some {| type := "prod"; packageName := targetName;
              packageVersion := targetVersion; currentVersion := current |}
  | None =>
      match outdated (devDependencies manifest) targetName targetVersion with
      | Some current =>
          Some {| type := "dev"; packageName := targetName;
                  packageVersion := targetVersion; currentVersion := current |}
      | None => None
      end
  end.

Definition manifest_of (objects : list Manifest) (repo : RepositoryEntity)
  : option Manifest :=
  match packageDefinition repo with
  | Some pd => objects !! decoded pd
  | None => None
  end.

(** The decision for one repository. *)
Definition upgrade (objects : list Manifest) (targetName targetVersion : string)
  (repo : RepositoryEntity) : option RepositoryEntity :=
  match manifest_of objects repo with
  | Some manifest =>
      match classify manifest targetName targetVersion with
      | Some rel => Some (set_dependencyRelationship rel repo)
      | None => None
      end
  | None => None
  end.

(** Modelled from the spec: [packages/filter.js] is not among the
    sources.  Section 4.1: repositories without [packageDefinition] are
    excluded; for the others [dependencies] and [devDependencies] of
    the decoded manifest are inspected for the target name, and a
    repository is kept, with [dependencyRelationship] set, when the
    name is present with a version other than the target; input order
    is preserved.  The spec names the two maps in this order, and
    [dependencies] is looked at first here ([outdated], [classify] and
    [upgrade] above are part of this model). *)
Definition repositoriesByDependencyUpgrade (objects : list Manifest)
  (repositories : list RepositoryEntity) (targetName targetVersion : string)
  : list RepositoryEntity :=
  omap (upgrade objects targetName targetVersion) repositories.

End Packages.

(** ** [src/actions/update.js] *)

Record Options : Type := mkOptions {
  repos : list string;
  owner : option string;
  noLockfile : bool;
  noPullRequest : bool;
  continue : bool;
  registry : option string
}.

Definition ACTION : string := "turnup.update".
Definition ALL_ACTION : string := "turnup.update.all".

(** [inquirer] answers with the values of the ticked choices; the
    environment says which positions were ticked. *)
Definition promptUserForRepos (choices : list (string * RepositoryEntity))
  : Async (list RepositoryEntity) :=
  ticked ← await (inquirer_prompt (fst <$> choices));
  Ret (omap (fun i => snd <$> choices !! i) ticked).

Definition getDepString (repo : RepositoryEntity) : Async string :=
  rel ← prop "packageName" (dependencyRelationship repo);
  Ret (packageName rel +:+ "@" +:+ packageVersion rel).

Definition getCommitMessage (repo : RepositoryEntity) (action : string)
  : Async string :=
  if bool_decide (action = ACTION) then
    rel ← prop "type" (dependencyRelationship repo);
    depString ← getDepString repo;
    Ret ("[turnup] Auto update of " +:+ type rel +:+ " dependency "
         +:+ depString)
  else Ret "[turnup] Auto update of package dependencies".

Definition LF : string := String (Ascii.ascii_of_nat 10) EmptyString.

Definition turnupNotice : string :=
  "This PR was automatically generated by the `turnup` [CLI](https://npmjs.com/turnup).".

Definition disclaimer : string :=
  "**Note**: formatting may have changed for package.json. It is processed using [format-package](https://www.npmjs.com/package/format-package).".

(** [update.js] calls it without [action], which then is [undefined]. *)
Definition getPullRequest (repo : RepositoryEntity) (action : option string)
  : Async PullRequest :=
  if bool_decide (action = Some ACTION) then
    depString ← getDepString repo;
    Ret {| body := "Update the package.json dependency for `" +:+ depString
                   +:+ "`. " +:+ turnupNotice +:+ LF +:+ LF +:+ disclaimer;
           title := "Update Dependency - " +:+ depString |}
  else
    Ret {| body := "Update the package.json dependencies within specified range. "
                   +:+ turnupNotice +:+ LF +:+ LF +:+ disclaimer;
           title := "Update Dependencies" |}.

(** Lines 83-93 of [commitUpdates]: the repository and the regenerated
    lockfile, [updatedLockFile], the rest of the function goes on with. *)
Definition regenerate_lockfile (action : string) (adapter : Adapter.t)
  (options : Options) (repository : RepositoryEntity)
  (formattedPackageDef : string)
  (create : string -> string -> option string -> Async string)
  : Async (RepositoryEntity * option string) :=
  if noLockfile options then Ret (repository, None)
  else
    sync (notify action "Generating lockfile.");;
    currentLockFile ←
      Adapter.invoke (Adapter.fetchLockfileDefinition adapter)
        "fetchLockfileDefinition" (fun f => f repository);
    match currentLockFile with
    | Some currentLockFile =>
        let repository := set_lockfileEntity currentLockFile repository in
        updatedLockFile ←
          create formattedPackageDef (packageManager currentLockFile)
            (registry options);
        Ret (repository, Some updatedLockFile)
    | None => Ret (repository, None)
    end.

(** [packageDef] is a reference to the manifest object; [formatPackage]
    is handed the object as it is at the time of the call.  The arguments
    of a call are evaluated before the call: [getCommitMessage] and
    [getPullRequest] come before the adapter's method is entered. *)
Definition commitUpdates (action : string) (adapter : Adapter.t)
  (options : Options) (repository : RepositoryEntity) (branchName : string)
  (packageDef : loc)
  (create : string -> string -> option string -> Async string) : Async unit :=
  object ← sync (deref packageDef);
  formattedPackageDef ← await (formatPackage object);
  generated ←
    regenerate_lockfile action adapter options repository formattedPackageDef
      create;
  let repository := fst generated in
  let updatedLockFile := snd generated in
  sync (notify action "Creating branch.");;
  Adapter.invoke (Adapter.createBranch adapter) "createBranch"
    (fun f => f repository branchName);;
  sync (notify action "Creating commit.");;
  message ← getCommitMessage repository action;
  Adapter.invoke (Adapter.commitPackageDefinition adapter)
    "commitPackageDefinition"
    (fun f => f repository branchName formattedPackageDef updatedLockFile
                message);;
  if noPullRequest options then Ret tt
  else
    sync (notify action "Creating pull request.");;
    pr ← getPullRequest repository None;
    Adapter.invoke (Adapter.createPullRequest adapter) "createPullRequest"
      (fun f => f repository branchName pr).

(** [packageDef.dependencies[packageName] = packageVersion], or the same on
    [devDependencies]: an assignment into the object [packageDef] refers
    to. *)
Definition set_dependency (dev : bool) (packageDef : loc)
  (packageName packageVersion : string) : Async unit :=
  object ← sync (deref packageDef);
  if dev then
    declared ← prop packageName (devDependencies object);
    sync (assign packageDef
            {| manifest_name := manifest_name object;
               dependencies := dependencies object;
               devDependencies := Some (<[packageName:=packageVersion]> declared) |})
  else
    declared ← prop packageName (dependencies object);
    sync (assign packageDef
            {| manifest_name := manifest_name object;
               dependencies := Some (<[packageName:=packageVersion]> declared);
               devDependencies := devDependencies object |}).

(** The call of [commitUpdates] on line 69 is neither awaited nor
    returned: the pipeline is detached, and the promise of
    [updateRepository] resolves without it. *)
Definition updateRepository (adapter : Adapter.t) (repo : RepositoryEntity)
  (packageName packageVersion : string) (options : Options) : Async unit :=
  let repository := repo in
  sync (notify ACTION ("Updating " +:+ fullName repository));;
  let branchName := "turnup/" +:+ packageName +:+ "@" +:+ packageVersion in
  pd ← prop "decoded" (packageDefinition repository);
  let packageDef := decoded pd in
  rel ← prop "type" (dependencyRelationship repository);
  set_dependency (bool_decide (type rel = "dev")) packageDef packageName
    packageVersion;;
  Detach
    (commitUpdates ACTION adapter options repository branchName packageDef
       (fun text manager reg => await (lockfile_create text manager reg)))
    (Ret tt).

(** Line 77: the same detached call. *)
Definition updateRepositoryAll (adapter : Adapter.t)
  (repository : RepositoryEntity) (options : Options) : Async unit :=
  sync (notify ALL_ACTION ("Running npm update against " +:+ fullName repository));;
  let branchName := "turnup/update-all" in
  pd ← prop "decoded" (packageDefinition repository);
  let packageDef := decoded pd in
  Detach
    (commitUpdates ALL_ACTION adapter options repository branchName packageDef
       (fun text manager reg => await (lockfile_update text manager reg)))
    (Ret tt).

(** The callback of the [reduce] at the end of [fetchRepositories]. *)
Definition keep_first (reduction : list RepositoryEntity)
  (value : RepositoryEntity) : list RepositoryEntity :=
  match list_find (fun repo => fullName repo = fullName value) reduction with
  | None => reduction ++ [value]
  | Some _ => reduction
  end.

Definition unique_by_fullName (repositories : list RepositoryEntity)
  : list RepositoryEntity :=
  foldl keep_first [] repositories.

(** Lines 114-123 of [fetchRepositories]: what the adapter found, in the
    order found. *)
Definition discovered (adapter : Adapter.t) (options : Options)
  : Async (list RepositoryEntity) :=
  let repositories := [] in
  repositories ←
    (if bool_decide (0 < length (repos options)) then
       found ← Adapter.invoke (Adapter.fetchRepositories adapter)
                 "fetchRepositories" (fun f => f (repos options));
       Ret (repositories ++ found)
     else Ret repositories);
  match owner options with
  | Some owner =>
      if bool_decide (0 < String.length owner) then
        found ← Adapter.invoke (Adapter.fetchRepositoriesByOwner adapter)
                  "fetchRepositoriesByOwner" (fun f => f owner);
        Ret (repositories ++ found)
      else Ret repositories
  | None => Ret repositories
  end.

Definition fetchRepositories (adapter : Adapter.t) (options : Options)
  : Async (list RepositoryEntity) :=
  repositories ← discovered adapter options;
  Ret (unique_by_fullName repositories).

Definition pluralizeRepo (repoList : list RepositoryEntity) : string :=
  pretty (length repoList) +:+ " repositor"
  +:+ (if bool_decide (length repoList = 1) then "y" else "ies").

(** Lines 143-177 of [update]: the repositories the pipelines are run
    for, or nothing when the run ends before.  The filter of
    [packages.filter] is synchronous and reads the manifest objects as
    they are then ([heap_view]); [notify] is given a third argument,
    [true], with the message that nothing requires updating, which the
    two-argument [notify] here leaves out. *)
Definition update_selection (parsedPackage : string * string)
  (adapter : Adapter.t) (options : Options)
  : Async (option (list RepositoryEntity)) :=
  let parsedPackageString := fst parsedPackage +:+ "@" +:+ snd parsedPackage in
  repositories ← fetchRepositories adapter options;
  (if bool_decide (length repositories = 0)
   then fatal ACTION NoRepositoriesFoundError
   else sync (notify ACTION "Found ."));;
  repositories ← Adapter.invoke (Adapter.fetchPackageDefinitions adapter)
                   "fetchPackageDefinitions" (fun f => f repositories);
  objects ← sync heap_view;
  let repositories :=
    Packages.repositoriesByDependencyUpgrade objects repositories
      (fst parsedPackage) (snd parsedPackage) in
  (if bool_decide (length repositories = 0)
   then sync (notify ACTION "No repositories require updating.")
   else sync (notify ACTION ("Found " +:+ pluralizeRepo repositories
                             +:+ " out of date.")));;
  repositories ←
    (if continue options then Ret repositories
     else
       repoChoices ←
         series
           ((fun repo =>
               pd ← prop "decoded" (packageDefinition repo);
               object ← sync (deref (decoded pd));
               rel ← prop "type" (dependencyRelationship repo);
               Ret (manifest_name object +:+ " (" +:+ type rel
                    +:+ " dependency of " +:+ currentVersion rel +:+ ")",
                    repo)) <$> repositories);
       promptUserForRepos repoChoices);
  if bool_decide (length repositories = 0) then
    sync (notify ACTION "No selected repos.");; Ret None
  else
    sync (notify ACTION ("Updating " +:+ pluralizeRepo repositories +:+ " with "
                         +:+ parsedPackageString));;
    Ret (Some repositories).

Definition update (packageString : string) (adapter : Adapter.t)
  (options : Options) : Async unit :=
  sync (notify ACTION ("Using adapter " +:+ Adapter.getName adapter +:+ "."));;
  try_catch
    (parsedPackage ← await (parsePackage packageString);
     selection ← update_selection parsedPackage adapter options;
     match selection with
     | None => Ret tt
     | Some repositories =>
         series
           ((fun repository =>
               updateRepository adapter repository (fst parsedPackage)
                 (snd parsedPackage) options) <$> repositories);;
         Ret tt
     end)
    (fun err => fatal ACTION err).

(** Lines 189-209 of [updateAll]. *)
Definition updateAll_selection (adapter : Adapter.t) (options : Options)
  : Async (list RepositoryEntity) :=
  repositoryList ← fetchRepositories adapter options;
  (if bool_decide (length repositoryList = 0)
   then fatal ALL_ACTION NoRepositoriesFoundError
   else sync (notify ALL_ACTION ("Found " +:+ pluralizeRepo repositoryList
                                 +:+ ".")));;
  repositoryList ← Adapter.invoke (Adapter.fetchPackageDefinitions adapter)
                     "fetchPackageDefinitions" (fun f => f repositoryList);
  if continue options then Ret repositoryList
  else promptUserForRepos ((fun repo => (name repo, repo)) <$> repositoryList).

Definition updateAll (adapter : Adapter.t) (options : Options) : Async unit :=
  sync (notify ALL_ACTION ("Using adapter " +:+ Adapter.getName adapter +:+ "."));;
  try_catch
    (repositoryList ← updateAll_selection adapter options;
     series
       ((fun repository => updateRepositoryAll adapter repository options)
        <$> repositoryList);;
     Ret tt)
    (fun err => fatal ALL_ACTION err).

(** * Properties *)

(** ** How [exec] goes through the combinators *)

Definition and_then {A B : Type} (env : Env) (r : Outcome A * World)
  (f : A -> Async B) : Outcome B * World :=
  match r with
  | (Returned a, w) => exec env (f a) w
  | (Thrown err, w) => (Thrown err, w)
  | (Exited, w) => (Exited, w)
  end.

Lemma exec_bind (env : Env) (A : Type) (m : Async A) :
  forall (B : Type) (f : A -> Async B) (w : World),
    exec env (bind m f) w = and_then env (exec env m w) f.
Proof.
  induction m as [A a | A err | A action err | A C op k IH | A C op k IH
                 | A child _ k IH]; intros B f w; simpl; try reflexivity.
  - destruct (do_sync env op w) as [r w']. apply IH.
  - apply IH.
  - apply IH.
Qed.

Lemma exec_try_catch (env : Env) (A : Type) (m : Async A) :
  forall (h : JsError -> Async A) (w : World),
    exec env (try_catch m h) w =
    match exec env m w with
    | (Thrown err, w') => exec env (h err) w'
    | other => other
    end.
Proof.
  induction m as [A a | A err | A action err | A C op k IH | A C op k IH
                 | A child _ k IH]; intros h w; simpl; try reflexivity.
  - destruct (do_sync env op w) as [r w']. apply IH.
  - apply IH.
  - apply IH.
Qed.

Lemma exec_await (env : Env) (B : Type) (op : AsyncOp B) (w : World) :
  exec env (await op) w =
  (match respond env (log w) op with
   | inl err => Thrown err
   | inr b => Returned b
   end, emit (Called op) w).
Proof. simpl. destruct (respond env (log w) op); reflexivity. Qed.

Lemma exec_settle (env : Env) (A : Type) (p : Async A) (w : World) :
  exec env (settle p) w =
  match exec env p w with
  | (Returned a, w') => (Returned (inr a), w')
  | (Thrown err, w') => (Returned (inl err), w')
  | (Exited, w') => (Exited, w')
  end.
Proof.
  unfold settle. rewrite exec_try_catch, exec_bind.
  destruct (exec env p w) as [[a | err |] w']; reflexivity.
Qed.

Lemma exec_bind_returned (env : Env) (A B : Type) (m : Async A)
  (f : A -> Async B) (w w' : World) (b : B) :
  exec env (bind m f) w = (Returned b, w') ->
  exists a w1, exec env m w = (Returned a, w1)
               /\ exec env (f a) w1 = (Returned b, w').
Proof.
  rewrite exec_bind.
  destruct (exec env m w) as [[a | err |] w1]; simpl; intros H;
    try discriminate.
  exists a, w1. split; [reflexivity | assumption].
Qed.

Lemma collect_values (A : Type) (rs : list (JsError + A)) (l : list A) :
  collect rs = inr l -> rs = inr <$> l.
Proof.
  revert l. induction rs as [| [err | a] rs IH]; intros l; simpl.
  - intros [= <-]. reflexivity.
  - discriminate.
  - destruct (collect rs) as [err | l0]; [discriminate |].
    intros [= <-]. simpl. f_equal. apply IH. reflexivity.
Qed.

Definition returns {A : Type} (env : Env) (p : Async A) (a : A) : Prop :=
  exists w1 w2, exec env p w1 = (Returned a, w2).

Lemma all_settled_each (env : Env) (A : Type) (ps : list (Async A)) :
  forall (rs : list (JsError + A)) (w w' : World),
    exec env (all_settled ps) w = (Returned rs, w') ->
    Forall2 (fun p r => returns env (settle p) r) ps rs.
Proof.
  induction ps as [| p ps IH]; intros rs w w'; simpl.
  - intros [= <- _]. constructor.
  - intros H.
    apply exec_bind_returned in H as (r & w1 & Hp & H).
    apply exec_bind_returned in H as (rest & w2 & Hps & H).
    simpl in H. injection H as <- _.
    constructor; [exists w, w1; assumption | eapply IH; eassumption].
Qed.

(** A fulfilled [Promise.all] holds, in order, a value every task
    returned. *)
Lemma promise_all_each (env : Env) (A : Type) (ps : list (Async A))
  (l : list A) (w w' : World) :
  exec env (promise_all ps) w = (Returned l, w') ->
  Forall2 (returns env) ps l.
Proof.
  unfold promise_all. intros H.
  apply exec_bind_returned in H as (rs & w1 & Hrs & H).
  destruct (collect rs) as [err | l0] eqn:Hcollect; simpl in H;
    [discriminate |].
  injection H as <- _.
  apply collect_values in Hcollect as ->.
  apply all_settled_each in Hrs.
  apply Forall2_fmap_r in Hrs.
  eapply Forall2_impl; [exact Hrs |].
  intros p a (w2 & w3 & Hp). rewrite exec_settle in Hp.
  exists w2. destruct (exec env p w2) as [[a0 | err |] w4]; try discriminate.
  exists w4. congruence.
Qed.

(** ** Resolving repositories by owner *)

(** What [ownerRepos.map(createRepositoryEntity)] gives. *)
Definition entities_of (ownerRepos : Listing)
  : Outcome (list RepositoryEntity) :=
  match ownerRepos with
  | JsArray items => Returned (GitHub.createRepositoryEntity <$> items)
  | NotAnArray => Thrown (TypeError "ownerRepos.map is not a function")
  end.

(** C6.  [fetchRepositoriesByOwner] first asks for the user's
    repositories.  When that answers a non-empty array, no other call is
    made and that array is the result.  When it answers an empty array or
    something that is not an array, the organization's repositories are
    asked for next, and their answer is the result.  (When the first call
    rejects, the rejection is the outcome and nothing else is called.) *)
Theorem fetchRepositoriesByOwner_user_then_org
  (env : Env) (owner : string) (w : World) :
  let asked_user := emit (Called (getUserRepos owner)) w in
  let asked_both := emit (Called (getOrgRepos owner)) asked_user in
  exec env (GitHub.fetchRepositoriesByOwner owner) w =
  match respond env (log w) (getUserRepos owner) with
  | inl err => (Thrown err, asked_user)
  | inr (JsArray (first :: others)) =>
      (Returned (GitHub.createRepositoryEntity <$> first :: others), asked_user)
  | inr _ =>
      match respond env (log asked_user) (getOrgRepos owner) with
      | inl err => (Thrown err, asked_both)
      | inr ownerRepos => (entities_of ownerRepos, asked_both)
      end
  end.
Proof.
  intros asked_user asked_both.
  unfold GitHub.fetchRepositoriesByOwner.
  rewrite exec_bind, exec_await.
  subst asked_user asked_both.
  destruct (respond env (log w) (getUserRepos owner))
    as [err | [[| first others] |]];
    simpl; try reflexivity;
    destruct (respond env _ (getOrgRepos owner)) as [err | [items |]];
    reflexivity.
Qed.


(** ** The commit step of the GitHub adapter *)

(** The two file writes [commitPackageDefinition] queues. *)
Definition write_manifest (repository : RepositoryEntity)
  (pd : PackageDefinition) (rel : DependencyRelationship)
  (branchName text : string) : AsyncOp unit :=
  createContents (fullName repository) branchName "package.json" (sha pd) text
    ("[turnup] Auto update of " +:+ type rel +:+ " dependency "
     +:+ packageName rel +:+ "@" +:+ packageVersion rel +:+ " - package.json").

Definition probe_lockfile (repository : RepositoryEntity) : AsyncOp Contents :=
  getContents (fullName repository) "package-lock.json".

(** C4.  In [commitPackageDefinition], called with a regenerated
    lockfile, let the probe for the remote [package-lock.json] reject with
    [err].  The error is written to the console in either case.  When its
    status code is 404 nothing is raised for it: the only call made
    afterwards is the write of [package.json], no lockfile is written, and
    the commit ends the way that one write ends, so it completes when the
    write succeeds.  With any other error the commit rejects with [err]
    and writes nothing. *)
Theorem commitPackageDefinition_lockfile_probe
  (env : Env) (repository : RepositoryEntity) (pd : PackageDefinition)
  (rel : DependencyRelationship) (branchName text lockFile message : string)
  (err : JsError) (w : World) :
  packageDefinition repository = Some pd ->
  dependencyRelationship repository = Some rel ->
  respond env (log w) (probe_lockfile repository) = inl err ->
  let probed := emit (Logged err) (emit (Called (probe_lockfile repository)) w) in
  let write := write_manifest repository pd rel branchName text in
  exec env
    (GitHub.commitPackageDefinition repository branchName text (Some lockFile)
       message) w =
  if bool_decide (statusCode err = Some 404) then
    (match respond env (log probed) write with
     | inl failure => Thrown failure
     | inr _ => Returned tt
     end, emit (Called write) probed)
  else (Thrown err, probed).
Proof.
  intros Hpd Hrel Hprobe probed write.
  unfold GitHub.commitPackageDefinition. rewrite Hpd, Hrel. simpl.
  unfold probe_lockfile in Hprobe. rewrite Hprobe. simpl.
  subst probed write. unfold probe_lockfile, write_manifest.
  destruct (decide (statusCode err = Some 404)) as [H404 | H404].
  - rewrite (bool_decide_eq_false_2 (statusCode err ≠ Some 404)) by tauto.
    rewrite (bool_decide_eq_true_2 _ H404). simpl.
    destruct (respond env _ (createContents _ _ _ _ _ _)); reflexivity.
  - rewrite (bool_decide_eq_true_2 (statusCode err ≠ Some 404)) by assumption.
    rewrite (bool_decide_eq_false_2 _ H404). reflexivity.
Qed.

(** ** Concrete runs *)

Module Scenario.

(** A hosting service where every call succeeds: repository [n] is
    [o/n] on branch [master], every [package.json] declares
    [lodash 4.17.0] as a production dependency. *)
Definition quiet (B : Type) (op : AsyncOp B) : JsError + B :=
  match op in AsyncOp T return JsError + T with
  | getRepo n =>
      inr {| raw_name := n; full_name := "o/" +:+ n; default_branch := "master" |}
  | getUserRepos _ => inr (JsArray [])
  | getOrgRepos _ => inr (JsArray [])
  | getContents r _ => inr {| content := r; contents_sha := "s1" |}
  | getRef _ _ => inr "head"
  | createRef _ _ _ => inr tt
  | createContents _ _ _ _ _ _ => inr tt
  | createPull _ _ _ _ _ => inr tt
  | parsePackage _ => inr ("lodash", "4.17.21")
  | formatPackage m => inr ("formatted " +:+ manifest_name m)
  | lockfile_create _ _ _ => inr "lock"
  | lockfile_update _ _ _ => inr "lock"
  | inquirer_prompt _ => inr []
  | any_fetchRepositories _ => inr []
  | any_fetchRepositoriesByOwner _ => inr []
  | any_fetchPackageDefinitions l => inr l
  | any_fetchLockfileDefinition _ => inr None
  | any_createBranch _ _ => inr tt
  | any_commitPackageDefinition _ _ _ _ _ => inr tt
  | any_createPullRequest _ _ _ => inr tt
  end.

Definition lodash_manifest (n : string) : Manifest :=
  {| manifest_name := n;
     dependencies := Some {[ "lodash" := "4.17.0" ]};
     devDependencies := None |}.

Definition all_well : Env :=
  {| respond := fun B _ op => quiet op;
     parse := fun text => inr (lodash_manifest text) |}.

(** The same, except that the head of [o/b] cannot be read. *)
Definition branch_of_b_fails : Env :=
  {| respond := fun B _ op =>
       match op in AsyncOp T return JsError + T with
       | getRef "o/b" _ => inl (HttpError 500)
       | other => quiet other
       end;
     parse := fun text => inr (lodash_manifest text) |}.

(** The same as [all_well], except that [name] (a repository, or a file
    of any repository) is answered with status [status]. *)
Definition missing (status : nat) (name : string) : Env :=
  {| respond := fun B _ op =>
       match op in AsyncOp T return JsError + T with
       | getContents r p =>
           if bool_decide (r = name ∨ p = name) then inl (HttpError status)
           else quiet (getContents r p)
       | other => quiet other
       end;
     parse := fun text => inr (lodash_manifest text) |}.

Definition three_repos : Options :=
  {| repos := ["a"; "b"; "c"]; owner := None; noLockfile := true;
     noPullRequest := false; continue := true; registry := None |}.

Definition repo (n : string) : RepositoryEntity :=
  {| name := n; fullName := "o/" +:+ n; defaultBranch := "master";
     packageDefinition := Some {| decoded := 0; sha := "s1" |};
     dependencyRelationship :=
       Some {| type := "prod"; packageName := "lodash";
               packageVersion := "4.17.21"; currentVersion := "4.17.0" |};
     lockfileEntity := None |}.

(** A repository as the adapter first hands it out. *)
Definition found (n : string) : RepositoryEntity :=
  GitHub.createRepositoryEntity
    {| raw_name := n; full_name := "o/" +:+ n; default_branch := "master" |}.

Definition one_manifest : World :=
  {| heap := [lodash_manifest "o/a"]; log := []; pool := []; unhandled := [] |}.

(** Owner [o] has the repositories [a] and [x]. *)
Definition owner_has_a_and_x : Env :=
  {| respond := fun B _ op =>
       match op in AsyncOp T return JsError + T with
       | getUserRepos _ =>
           inr (JsArray
                  [{| raw_name := "a"; full_name := "o/a";
                      default_branch := "master" |};
                   {| raw_name := "x"; full_name := "o/x";
                      default_branch := "master" |}])
       | other => quiet other
       end;
     parse := fun text => inr (lodash_manifest text) |}.

(** Every repository has a remote lockfile, managed by npm. *)
Definition with_lockfile : Env :=
  {| respond := fun B _ op =>
       match op in AsyncOp T return JsError + T with
       | any_fetchLockfileDefinition _ =>
           inr (Some {| packageManager := "npm"; lockfileContent := "{}" |})
       | other => quiet other
       end;
     parse := fun text => inr (lodash_manifest text) |}.

Definition everything_enabled : Options :=
  {| repos := ["a"]; owner := None; noLockfile := false;
     noPullRequest := false; continue := true; registry := None |}.

Definition names_and_owner : Options :=
  {| repos := ["a"; "b"]; owner := Some "o"; noLockfile := true;
     noPullRequest := false; continue := true; registry := None |}.

End Scenario.

(** The calls of the publish pipelines found in a log, each with the
    repository it is about. *)
Definition pipeline_call (ev : Event) : option (string * string) :=
  match ev with
  | Called op =>
      match op with
      | formatPackage m => Some ("formatPackage", manifest_name m)
      | getRef r _ => Some ("getRef", r)
      | createRef r _ _ => Some ("createRef", r)
      | createContents r _ _ _ _ _ => Some ("createContents", r)
      | createPull r _ _ _ _ => Some ("createPull", r)
      | _ => None
      end
  | _ => None
  end.

Definition is_exit (ev : Event) : bool :=
  match ev with
  | Exit _ _ => true
  | _ => false
  end.

Lemma commitPackageDefinition_lockfile_probe_witness :
  exec (Scenario.missing 404 "package-lock.json")
    (GitHub.commitPackageDefinition (Scenario.repo "a") "turnup/lodash@4.17.21"
       "text" (Some "lock") "message") empty_world =
  (Returned tt,
   emit (Called (write_manifest (Scenario.repo "a")
                   {| decoded := 0; sha := "s1" |}
                   {| type := "prod"; packageName := "lodash";
                      packageVersion := "4.17.21"; currentVersion := "4.17.0" |}
                   "turnup/lodash@4.17.21" "text"))
     (emit (Logged (HttpError 404))
        (emit (Called (probe_lockfile (Scenario.repo "a"))) empty_world))).
Proof.
  exact (commitPackageDefinition_lockfile_probe
           (Scenario.missing 404 "package-lock.json") (Scenario.repo "a")
           "turnup/lodash@4.17.21" "text" "lock" "message" empty_world
           eq_refl eq_refl eq_refl).
Defined.

(** ** The series of pipelines *)

(** C1, at the failing input.  [update] over the three repositories
    [o/a], [o/b], [o/c], where reading the head of [o/b] fails with
    status 500 inside the second pipeline.  [updateRepository] does not
    await [commitUpdates], so: the three pipelines are all started before
    any of them has created its branch, the pipeline of [o/c] runs to its
    pull request, the error reaches no [catch] (it stays an unhandled
    rejection), nothing is reported as fatal and [update] returns
    normally. *)
Theorem update_goes_on_after_a_failed_pipeline :
  let result :=
    run Scenario.branch_of_b_fails 20
      (update "lodash@4.17.21" GitHub.adapter Scenario.three_repos)
      empty_world in
  fst result = Returned tt
  ∧ pool (snd result) = []
  ∧ unhandled (snd result) = [HttpError 500]
  ∧ filter is_exit (log (snd result)) = []
  ∧ omap pipeline_call (log (snd result)) =
      [("formatPackage", "o/a"); ("formatPackage", "o/b");
       ("formatPackage", "o/c");
       ("getRef", "o/a"); ("getRef", "o/b"); ("getRef", "o/c");
       ("createRef", "o/a"); ("createRef", "o/c");
       ("createContents", "o/a"); ("createContents", "o/c");
       ("createPull", "o/a"); ("createPull", "o/c")].
Proof. vm_compute. repeat split; reflexivity. Qed.

(** The same for every adapter and every environment: once the manifest
    is updated, [updateRepository] returns, whatever its pipeline is
    going to do. *)
Lemma updateRepository_returns_before_its_pipeline
  (env : Env) (adapter : Adapter.t) (repo : RepositoryEntity)
  (pd : PackageDefinition) (rel : DependencyRelationship) (object : Manifest)
  (packageName packageVersion : string) (options : Options) (w : World) :
  packageDefinition repo = Some pd ->
  dependencyRelationship repo = Some rel ->
  heap w !! decoded pd = Some object ->
  is_Some (if bool_decide (type rel = "dev") then devDependencies object
           else dependencies object) ->
  fst (exec env (updateRepository adapter repo packageName packageVersion
                   options) w) = Returned tt.
Proof.
  intros Hpd Hrel Hobject [declared Hdeclared].
  unfold updateRepository, set_dependency. rewrite Hpd, Hrel. simpl.
  rewrite Hobject. simpl.
  destruct (bool_decide (type rel = "dev")); rewrite Hdeclared; reflexivity.
Qed.

(** ** Fetching the manifests *)

(** C7, at the failing input.  Of three repositories, [o/b] has no
    [package.json] (status 404).  [fetchPackageDefinitions] of
    [adapter.js] has no handler for it and rejects; the version of the
    unnamed file returns [o/b] unchanged between the two others, which
    carry their manifests. *)
Theorem adapter_js_rejects_a_missing_manifest :
  let repositories := Scenario.found <$> ["a"; "b"; "c"] in
  let env := Scenario.missing 404 "o/b" in
  fst (exec env (AdapterJs.fetchPackageDefinitions repositories) empty_world)
  = Thrown (HttpError 404)
  ∧ fst (exec env (GitHub.fetchPackageDefinitions repositories) empty_world)
    = Returned
        [set_packageDefinition {| decoded := 0; sha := "s1" |} (Scenario.found "a");
         Scenario.found "b";
         set_packageDefinition {| decoded := 1; sha := "s1" |} (Scenario.found "c")].
Proof. vm_compute. split; reflexivity. Qed.

(** In the unnamed file every entity handed back is the one received,
    with at most [packageDefinition] set. *)
Lemma fetchPackageDefinitions_each (env : Env)
  (repositories l : list RepositoryEntity) (w w' : World) :
  exec env (GitHub.fetchPackageDefinitions repositories) w = (Returned l, w') ->
  Forall2 (fun repository r =>
             r = repository
             ∨ exists pd, r = set_packageDefinition pd repository)
    repositories l.
Proof.
  unfold GitHub.fetchPackageDefinitions. intros H.
  apply promise_all_each in H. rewrite Forall2_fmap_l in H.
  eapply Forall2_impl; [exact H |].
  intros repository r (w1 & w2 & Hr). cbv beta in Hr.
  rewrite exec_try_catch, exec_bind in Hr.
  destruct (exec env (GitHub.getPackageJson repository) w1)
    as [[pd | err |] w3]; simpl in Hr.
  - right. exists pd. congruence.
  - destruct (bool_decide (statusCode err = Some 404)); simpl in Hr;
      [| discriminate].
    left. congruence.
  - discriminate.
Qed.

(** A rejected manifest fetch with status 404 is not raised by the task
    of the unnamed file, any other rejection is. *)
Lemma fetchPackageDefinitions_one (env : Env) (repository : RepositoryEntity)
  (err : JsError) (w : World) :
  respond env (log w) (getContents (fullName repository) "package.json")
  = inl err ->
  fst (exec env (GitHub.fetchPackageDefinitions [repository]) w) =
  if bool_decide (statusCode err = Some 404) then Returned [repository]
  else Thrown err.
Proof.
  intros H. unfold GitHub.fetchPackageDefinitions, promise_all. simpl.
  rewrite H. simpl.
  destruct (bool_decide (statusCode err = Some 404)); reflexivity.
Qed.

(** The bulk flow applies no filter after the fetch: with [continue] set,
    the repository without manifest reaches [updateRepositoryAll], which
    throws on [repository.packageDefinition.decoded], and the run ends
    as fatal before [o/c] is looked at. *)
Lemma updateAll_aborts_on_a_missing_manifest :
  let result :=
    run (Scenario.missing 404 "o/b") 20
      (updateAll GitHub.adapter Scenario.three_repos) empty_world in
  fst result = Exited
  ∧ filter is_exit (log (snd result)) =
      [Exit ALL_ACTION (TypeError "Cannot read property 'decoded' of undefined")]
  ∧ omap pipeline_call (log (snd result)) = [("formatPackage", "o/a")].
Proof. vm_compute. repeat split; reflexivity. Qed.

(** ** The lockfile step *)

Definition create_lockfile (text manager : string) (reg : option string)
  : Async string :=
  await (lockfile_create text manager reg).

(** C9, at the failing input.  Neither version of the GitHub class
    defines [fetchLockfileDefinition].  With [noLockfile] unset the
    pipeline formats the manifest, announces the lockfile generation and
    then throws on the call of the missing method: no lockfile is
    fetched, and no branch, commit or pull request follows. *)
Theorem github_has_no_fetchLockfileDefinition :
  let options :=
    {| repos := ["a"]; owner := None; noLockfile := false;
       noPullRequest := false; continue := true; registry := None |} in
  let result :=
    exec Scenario.all_well
      (commitUpdates ACTION GitHub.adapter options (Scenario.repo "a")
         "turnup/lodash@4.17.21" 0 create_lockfile)
      Scenario.one_manifest in
  Adapter.fetchLockfileDefinition GitHub.adapter = None
  ∧ Adapter.fetchLockfileDefinition AdapterJs.adapter = None
  ∧ fst result =
      Thrown (TypeError "adapter.fetchLockfileDefinition is not a function")
  ∧ log (snd result) =
      [Called (formatPackage (Scenario.lodash_manifest "o/a"));
       Notified ACTION "Generating lockfile."].
Proof. vm_compute. repeat split; reflexivity. Qed.

(** With an adapter that has the method, the step is as described: an
    answer [undefined] ends it without error, no generator called and
    the repository as received; an entity leads to one call of the
    generator, on the formatted manifest, the entity's package manager
    and the configured registry, and the repository goes on carrying the
    entity. *)
Lemma regenerate_lockfile_any (env : Env) (action : string)
  (options : Options) (repository : RepositoryEntity) (text : string)
  (generator : string -> string -> option string -> AsyncOp string)
  (w : World) :
  noLockfile options = false ->
  let fetch := any_fetchLockfileDefinition repository in
  let fetching := emit (Notified action "Generating lockfile.") w in
  let fetched := emit (Called fetch) fetching in
  exec env
    (regenerate_lockfile action Adapter.any options repository text
       (fun t m r => await (generator t m r))) w =
  match respond env (log fetching) fetch with
  | inl err => (Thrown err, fetched)
  | inr None => (Returned (repository, None), fetched)
  | inr (Some currentLockFile) =>
      let call :=
        generator text (packageManager currentLockFile) (registry options) in
      (match respond env (log fetched) call with
       | inl err => Thrown err
       | inr updatedLockFile =>
           Returned (set_lockfileEntity currentLockFile repository,
                     Some updatedLockFile)
       end, emit (Called call) fetched)
  end.
Proof.
  intros Hno fetch fetching fetched. subst fetch fetching fetched.
  unfold regenerate_lockfile. rewrite Hno. simpl.
  destruct (respond env _ (any_fetchLockfileDefinition repository))
    as [err | [currentLockFile |]]; simpl; try reflexivity.
  destruct (respond env _ (generator _ _ _)); reflexivity.
Qed.

(** ** Gathering *)

(** The first entity of a list that has a given full name. *)
Definition first_named (n : string) (l : list RepositoryEntity)
  : option RepositoryEntity :=
  snd <$> list_find (fun repo => fullName repo = n) l.

(** What the reduction has kept ([kept]) of the part of the list it has
    gone through ([seen]). *)
Record Kept (kept seen : list RepositoryEntity) : Prop := mkKept {
  kept_unique : NoDup (fullName <$> kept);
  kept_in_order : kept `sublist_of` seen;
  kept_every_name :
    forall x, x ∈ seen -> exists y, y ∈ kept /\ fullName y = fullName x;
  kept_is_first :
    forall y, y ∈ kept -> first_named (fullName y) seen = Some y
}.

Lemma first_named_app_l (n : string) (l k : list RepositoryEntity)
  (y : RepositoryEntity) :
  first_named n l = Some y -> first_named n (l ++ k) = Some y.
Proof.
  unfold first_named. intros H.
  destruct (list_find (fun repo => fullName repo = n) l) as [[i x] |] eqn:Hl;
    [| discriminate].
  rewrite (list_find_app_l _ _ _ _ _ Hl). exact H.
Qed.

Lemma Kept_nil : Kept [] [].
Proof.
  split.
  - constructor.
  - reflexivity.
  - intros x Hx. inversion Hx.
  - intros y Hy. inversion Hy.
Qed.

Lemma Kept_step (kept seen : list RepositoryEntity) (value : RepositoryEntity) :
  Kept kept seen -> Kept (keep_first kept value) (seen ++ [value]).
Proof.
  intros [Hunique Horder Hnames Hfirst]. unfold keep_first.
  destruct (list_find (fun repo => fullName repo = fullName value) kept)
    as [[i y] |] eqn:Hfind.
  - apply list_find_Some in Hfind as (Hi & Hy & _).
    apply list_elem_of_lookup_2 in Hi. split.
    + exact Hunique.
    + apply sublist_inserts_r. exact Horder.
    + intros x [Hx | Hx]%elem_of_app.
      * apply Hnames. exact Hx.
      * apply list_elem_of_singleton in Hx as ->. exists y. split; assumption.
    + intros z Hz. apply first_named_app_l, Hfirst. exact Hz.
  - apply list_find_None in Hfind. rewrite Forall_forall in Hfind. split.
    + rewrite fmap_app. apply NoDup_app. split; [exact Hunique |].
      split; [| apply NoDup_singleton].
      intros n (z & -> & Hz)%list_elem_of_fmap Hn.
      apply list_elem_of_singleton in Hn. exact (Hfind z Hz Hn).
    + apply sublist_app; [exact Horder | reflexivity].
    + intros x [Hx | Hx]%elem_of_app.
      * destruct (Hnames x Hx) as (z & Hz & Hname).
        exists z. split; [apply elem_of_app; left; exact Hz | exact Hname].
      * exists x. split; [apply elem_of_app; right; exact Hx | reflexivity].
    + intros z [Hz | Hz]%elem_of_app.
      * apply first_named_app_l, Hfirst. exact Hz.
      * apply list_elem_of_singleton in Hz as ->. unfold first_named.
        rewrite list_find_app_r.
        { simpl. rewrite decide_True by reflexivity. reflexivity. }
        apply list_find_None, Forall_forall. intros x Hx Hname.
        destruct (Hnames x Hx) as (z & Hz & Hzx).
        apply (Hfind z Hz). congruence.
Qed.

Lemma Kept_foldl (repositories kept seen : list RepositoryEntity) :
  Kept kept seen ->
  Kept (foldl keep_first kept repositories) (seen ++ repositories).
Proof.
  revert kept seen.
  induction repositories as [| value repositories IH]; intros kept seen H.
  - rewrite app_nil_r. exact H.
  - simpl. rewrite (cons_middle value seen repositories), app_assoc.
    apply IH, Kept_step, H.
Qed.

Lemma unique_by_fullName_Kept (repositories : list RepositoryEntity) :
  Kept (unique_by_fullName repositories) repositories.
Proof. exact (Kept_foldl repositories Kept_nil). Qed.

(** C5.  Whatever the adapter and the environment, when
    [fetchRepositories] returns, its result [l] relates to [found], the
    entities discovered (those of the explicit names followed by those of
    the owner), as follows: no two entities of [l] have the same
    [fullName]; [l] is [found] with some entities left out, the others in
    their order; every discovered [fullName] is still in [l]; and each
    entity of [l] is the first of [found] that has its [fullName]. *)
Theorem fetchRepositories_keeps_first_of_each_fullName
  (env : Env) (adapter : Adapter.t) (options : Options)
  (l : list RepositoryEntity) (w w' : World) :
  exec env (fetchRepositories adapter options) w = (Returned l, w') ->
  exists found,
    exec env (discovered adapter options) w = (Returned found, w')
    /\ NoDup (fullName <$> l)
    /\ l `sublist_of` found
    /\ (forall x, x ∈ found -> exists y, y ∈ l /\ fullName y = fullName x)
    /\ (forall y, y ∈ l -> first_named (fullName y) found = Some y).
Proof.
  unfold fetchRepositories. intros H.
  apply exec_bind_returned in H as (found & w1 & Hfound & H).
  simpl in H. injection H as <- <-.
  exists found. split; [exact Hfound |].
  destruct (unique_by_fullName_Kept found) as [H1 H2 H3 H4].
  repeat split; assumption.
Qed.

Lemma fetchRepositories_keeps_first_of_each_fullName_witness :
  let l := Scenario.found <$> ["a"; "b"; "x"] in
  let w' :=
    snd (exec Scenario.owner_has_a_and_x
           (fetchRepositories GitHub.adapter Scenario.names_and_owner)
           empty_world) in
  exists found,
    exec Scenario.owner_has_a_and_x
      (discovered GitHub.adapter Scenario.names_and_owner) empty_world
    = (Returned found, w')
    /\ NoDup (fullName <$> l)
    /\ l `sublist_of` found
    /\ (forall x, x ∈ found -> exists y, y ∈ l /\ fullName y = fullName x)
    /\ (forall y, y ∈ l -> first_named (fullName y) found = Some y).
Proof.
  exact (fetchRepositories_keeps_first_of_each_fullName
           Scenario.owner_has_a_and_x GitHub.adapter Scenario.names_and_owner
           empty_world eq_refl).
Defined.

Example discovered_in_order :
  fst (exec Scenario.owner_has_a_and_x
         (discovered GitHub.adapter Scenario.names_and_owner) empty_world)
  = Returned (Scenario.found <$> ["a"; "b"; "a"; "x"]).
Proof. vm_compute. reflexivity. Qed.

(** ** The bulk flow and [dependencyRelationship] *)

Definition unclassified (repository : RepositoryEntity) : Prop :=
  dependencyRelationship repository = None.

Lemma createRepositoryEntity_unclassified (raws : list RawRepo) :
  Forall unclassified (GitHub.createRepositoryEntity <$> raws).
Proof. apply Forall_fmap, Forall_forall. intros raw _. reflexivity. Qed.

Lemma fetchRepositories_unclassified (env : Env) (names : list string)
  (l : list RepositoryEntity) (w w' : World) :
  exec env (GitHub.fetchRepositories names) w = (Returned l, w') ->
  Forall unclassified l.
Proof.
  unfold GitHub.fetchRepositories. intros H.
  apply exec_bind_returned in H as (raws & w1 & _ & H).
  simpl in H. injection H as <- _. apply createRepositoryEntity_unclassified.
Qed.

Lemma fetchRepositoriesByOwner_unclassified (env : Env) (owner : string)
  (l : list RepositoryEntity) (w w' : World) :
  exec env (GitHub.fetchRepositoriesByOwner owner) w = (Returned l, w') ->
  Forall unclassified l.
Proof.
  unfold GitHub.fetchRepositoriesByOwner. intros H.
  apply exec_bind_returned in H as (first & w1 & _ & H).
  apply exec_bind_returned in H as (ownerRepos & w2 & _ & H).
  destruct ownerRepos as [items |]; simpl in H; [| discriminate].
  injection H as <- _. apply createRepositoryEntity_unclassified.
Qed.

Lemma discovered_unclassified (env : Env) (options : Options)
  (l : list RepositoryEntity) (w w' : World) :
  exec env (discovered GitHub.adapter options) w = (Returned l, w') ->
  Forall unclassified l.
Proof.
  unfold discovered. intros H.
  apply exec_bind_returned in H as (named & w1 & Hnamed & H).
  assert (Forall unclassified named) as Hn.
  { destruct (bool_decide (0 < length (repos options))); simpl in Hnamed.
    - apply exec_bind_returned in Hnamed as (found & w2 & Hfound & Hnamed).
      simpl in Hnamed. injection Hnamed as <- _.
      eapply fetchRepositories_unclassified, Hfound.
    - injection Hnamed as <- _. constructor. }
  destruct (owner options) as [o |]; [| simpl in H; congruence].
  destruct (bool_decide (0 < String.length o)); [| simpl in H; congruence].
  simpl in H.
  apply exec_bind_returned in H as (found & w2 & Hfound & H).
  simpl in H. injection H as <- _.
  apply Forall_app. split; [exact Hn |].
  eapply fetchRepositoriesByOwner_unclassified, Hfound.
Qed.

Lemma unique_by_fullName_elem_of (repositories : list RepositoryEntity)
  (y : RepositoryEntity) :
  y ∈ unique_by_fullName repositories -> y ∈ repositories.
Proof.
  intros Hy.
  apply (kept_is_first (unique_by_fullName_Kept repositories)) in Hy.
  unfold first_named in Hy.
  destruct (list_find (fun repo => fullName repo = fullName y) repositories)
    as [[i x] |] eqn:Hfind; [| discriminate].
  simpl in Hy. injection Hy as ->.
  apply list_find_Some in Hfind as (Hi & _).
  eapply list_elem_of_lookup_2, Hi.
Qed.

Lemma promptUserForRepos_among_choices (env : Env)
  (choices : list (string * RepositoryEntity)) (l : list RepositoryEntity)
  (w w' : World) :
  exec env (promptUserForRepos choices) w = (Returned l, w') ->
  forall y, y ∈ l -> y ∈ snd <$> choices.
Proof.
  unfold promptUserForRepos. intros H y Hy.
  apply exec_bind_returned in H as (ticked & w1 & _ & H).
  simpl in H. injection H as <- _.
  apply list_elem_of_omap in Hy as (i & _ & Hi).
  destruct (choices !! i) as [choice |] eqn:Hchoice; [| discriminate].
  simpl in Hi. injection Hi as <-.
  apply list_elem_of_fmap_2. eapply list_elem_of_lookup_2, Hchoice.
Qed.

(** Every repository the bulk flow selects, with the GitHub adapter, is
    without [dependencyRelationship]. *)
Lemma updateAll_selection_unclassified (env : Env) (options : Options)
  (l : list RepositoryEntity) (w w' : World) :
  exec env (updateAll_selection GitHub.adapter options) w = (Returned l, w') ->
  Forall unclassified l.
Proof.
  unfold updateAll_selection. intros H.
  apply exec_bind_returned in H as (gathered & w1 & Hgathered & H).
  apply exec_bind_returned in H as (u & w2 & _ & H).
  apply exec_bind_returned in H as (fetched & w3 & Hfetched & H).
  assert (Forall unclassified fetched) as Hf.
  { unfold fetchRepositories in Hgathered.
    apply exec_bind_returned in Hgathered as (found & w4 & Hfound & Hg).
    simpl in Hg. injection Hg as <- _.
    apply discovered_unclassified in Hfound.
    simpl in Hfetched. apply fetchPackageDefinitions_each in Hfetched.
    apply Forall_forall. intros r Hr.
    apply list_elem_of_lookup_1 in Hr as (i & Hi).
    destruct (Forall2_lookup_r _ _ _ _ _ Hfetched Hi) as (x & Hx & Hrx).
    apply list_elem_of_lookup_2, unique_by_fullName_elem_of in Hx.
    rewrite Forall_forall in Hfound. specialize (Hfound x Hx).
    destruct Hrx as [-> | (pd & ->)]; exact Hfound. }
  destruct (continue options).
  - simpl in H. injection H as <- _. exact Hf.
  - apply Forall_forall. intros y Hy.
    eapply promptUserForRepos_among_choices in Hy; [| exact H].
    rewrite <- list_fmap_compose in Hy.
    apply list_elem_of_fmap in Hy as (x & -> & Hx). simpl.
    rewrite Forall_forall in Hf. exact (Hf x Hx).
Qed.

(** C10.  For a repository without [dependencyRelationship], the
    adapter's [commitPackageDefinition] and [createPullRequest] throw a
    [TypeError] before any call to the hosting service; and every
    repository the bulk flow [updateAll] hands to its pipelines is without
    one. *)
Theorem bulk_flow_commit_and_pull_request_throw
  (env : Env) (repository : RepositoryEntity) (w : World) :
  dependencyRelationship repository = None ->
  (forall (branchName text message : string) (lockFile : option string),
     exists reason,
       exec env (GitHub.commitPackageDefinition repository branchName text
                   lockFile message) w = (Thrown (TypeError reason), w))
  /\ (forall (branchName : string) (pr : PullRequest),
        exists reason,
          exec env (GitHub.createPullRequest repository branchName pr) w
          = (Thrown (TypeError reason), w))
  /\ (forall (options : Options) (l : list RepositoryEntity) (w' : World),
        exec env (updateAll_selection GitHub.adapter options) w
        = (Returned l, w') ->
        Forall (fun selected => dependencyRelationship selected = None) l).
Proof.
  intros Hrel. split; [| split].
  - intros branchName text message lockFile.
    unfold GitHub.commitPackageDefinition. rewrite Hrel.
    destruct (packageDefinition repository); simpl; eexists; reflexivity.
  - intros branchName pr. unfold GitHub.createPullRequest. rewrite Hrel.
    simpl. eexists. reflexivity.
  - intros options l w' H.
    exact (updateAll_selection_unclassified env options w H).
Qed.

Lemma bulk_flow_commit_and_pull_request_throw_witness :
  (forall (branchName text message : string) (lockFile : option string),
     exists reason,
       exec Scenario.all_well
         (GitHub.commitPackageDefinition (Scenario.found "a") branchName text
            lockFile message) empty_world
       = (Thrown (TypeError reason), empty_world))
  /\ (forall (branchName : string) (pr : PullRequest),
        exists reason,
          exec Scenario.all_well
            (GitHub.createPullRequest (Scenario.found "a") branchName pr)
            empty_world
          = (Thrown (TypeError reason), empty_world))
  /\ (forall (options : Options) (l : list RepositoryEntity) (w' : World),
        exec Scenario.all_well (updateAll_selection GitHub.adapter options)
          empty_world = (Returned l, w') ->
        Forall (fun selected => dependencyRelationship selected = None) l).
Proof.
  exact (bulk_flow_commit_and_pull_request_throw Scenario.all_well
           (Scenario.found "a") empty_world eq_refl).
Defined.

(** The bulk flow on three repositories, manifests present and the
    hosting service answering every call: each pipeline creates its
    branch and then rejects in the commit step; nothing is committed and
    no pull request is opened. *)
Example updateAll_never_commits :
  let result :=
    run Scenario.all_well 20 (updateAll GitHub.adapter Scenario.three_repos)
      empty_world in
  fst result = Returned tt
  ∧ unhandled (snd result) =
      replicate 3 (TypeError "Cannot read property 'type' of undefined")
  ∧ omap pipeline_call (log (snd result)) =
      [("formatPackage", "o/a"); ("formatPackage", "o/b");
       ("formatPackage", "o/c");
       ("getRef", "o/a"); ("getRef", "o/b"); ("getRef", "o/c");
       ("createRef", "o/a"); ("createRef", "o/b"); ("createRef", "o/c")].
Proof. vm_compute. repeat split; reflexivity. Qed.

(** ** Classification *)

(** A dependency map is there and declares version [v] for [n]. *)
Definition declares (deps : option (gmap string string)) (n v : string)
  : Prop :=
  exists declared, deps = Some declared /\ declared !! n = Some v.

Lemma outdated_Some (deps : option (gmap string string))
  (n v current : string) :
  Packages.outdated deps n v = Some current
  <-> declares deps n current /\ current ≠ v.
Proof.
  unfold Packages.outdated, declares. split.
  - destruct deps as [declared |]; [| discriminate].
    destruct (declared !! n) as [c |] eqn:Hc; [| discriminate].
    case_bool_decide; [discriminate |].
    intros [= <-]. split; [exists declared; split; [reflexivity | exact Hc] |].
    assumption.
  - intros [(declared & -> & Hc) Hne]. rewrite Hc.
    rewrite bool_decide_eq_false_2 by assumption. reflexivity.
Qed.

Lemma outdated_None (deps : option (gmap string string)) (n v : string) :
  Packages.outdated deps n v = None
  <-> forall current, declares deps n current -> current = v.
Proof.
  split.
  - intros Hnone current Hcurrent.
    destruct (decide (current = v)) as [| Hne]; [assumption |].
    assert (Packages.outdated deps n v = Some current) as Hsome
      by (apply outdated_Some; split; assumption).
    congruence.
  - intros Hall.
    destruct (Packages.outdated deps n v) as [current |] eqn:Hout;
      [| reflexivity].
    apply outdated_Some in Hout as [Hdecl Hne].
    destruct Hne. apply Hall, Hdecl.
Qed.

(** C2.  For the classifier as section 4.1 of the specification
    describes it: its output consists of the decisions made for the
    repositories of its input one by one; a repository is included if and
    only if it has a manifest and [dependencies] or [devDependencies]
    declares the target package with a version other than the target
    version (so it is left out when the package is in neither map, and
    when every declaration is the target version); and an included
    repository is the input repository with a [dependencyRelationship]
    that names the target, is of type ["prod"] or ["dev"] according to
    the map the version was found in, and has that version as
    [currentVersion]. *)
Theorem repositoriesByDependencyUpgrade_includes_outdated
  (objects : list Manifest) (repositories : list RepositoryEntity)
  (targetName targetVersion : string) :
  (forall r,
     r ∈ Packages.repositoriesByDependencyUpgrade objects repositories
           targetName targetVersion
     <-> exists repo,
           repo ∈ repositories
           /\ Packages.upgrade objects targetName targetVersion repo = Some r)
  /\ (forall repo,
        is_Some (Packages.upgrade objects targetName targetVersion repo)
        <-> exists manifest current,
              Packages.manifest_of objects repo = Some manifest
              /\ current ≠ targetVersion
              /\ (declares (dependencies manifest) targetName current
                  \/ declares (devDependencies manifest) targetName current))
  /\ (forall repo r,
        Packages.upgrade objects targetName targetVersion repo = Some r ->
        exists manifest rel,
          Packages.manifest_of objects repo = Some manifest
          /\ r = set_dependencyRelationship rel repo
          /\ packageName rel = targetName
          /\ packageVersion rel = targetVersion
          /\ currentVersion rel ≠ targetVersion
          /\ ((type rel = "prod"
               /\ declares (dependencies manifest) targetName (currentVersion rel))
              \/ (type rel = "dev"
                  /\ declares (devDependencies manifest) targetName
                       (currentVersion rel)))).
Proof.
  split; [| split].
  - intros r. unfold Packages.repositoriesByDependencyUpgrade.
    apply list_elem_of_omap.
  - intros repo. unfold Packages.upgrade, Packages.classify.
    destruct (Packages.manifest_of objects repo) as [manifest |] eqn:Hm.
    2: { split; [intros [? [=]] | intros (m & c & [=] & _)]. }
    destruct (Packages.outdated (dependencies manifest) targetName
                targetVersion) as [current |] eqn:Hprod.
    { apply outdated_Some in Hprod as [Hdecl Hne].
      split; [intros _; exists manifest, current; auto
             | intros _; eexists; reflexivity]. }
    destruct (Packages.outdated (devDependencies manifest) targetName
                targetVersion) as [current |] eqn:Hdev.
    { apply outdated_Some in Hdev as [Hdecl Hne].
      split; [intros _; exists manifest, current; auto
             | intros _; eexists; reflexivity]. }
    split; [intros [? [=]] |].
    intros (m & current & [= <-] & Hne & [Hdecl | Hdecl]); destruct Hne.
    + rewrite outdated_None in Hprod. apply Hprod, Hdecl.
    + rewrite outdated_None in Hdev. apply Hdev, Hdecl.
  - intros repo r. unfold Packages.upgrade, Packages.classify.
    destruct (Packages.manifest_of objects repo) as [manifest |];
      [| discriminate].
    destruct (Packages.outdated (dependencies manifest) targetName
                targetVersion) as [current |] eqn:Hprod.
    { apply outdated_Some in Hprod as [Hdecl Hne]. intros [= <-].
      eexists manifest, _. split; [reflexivity |]. split; [reflexivity |].
      simpl. auto 10. }
    destruct (Packages.outdated (devDependencies manifest) targetName
                targetVersion) as [current |] eqn:Hdev; [| discriminate].
    apply outdated_Some in Hdev as [Hdecl Hne]. intros [= <-].
    eexists manifest, _. split; [reflexivity |]. split; [reflexivity |].
    simpl. auto 10.
Qed.

Lemma repositoriesByDependencyUpgrade_includes_outdated_witness :
  let objects :=
    [Scenario.lodash_manifest "o/a";
     {| manifest_name := "o/b"; dependencies := Some ∅;
        devDependencies := None |}] in
  let a := Scenario.repo "a" in
  let b :=
    set_packageDefinition {| decoded := 1; sha := "s2" |} (Scenario.found "b") in
  Packages.repositoriesByDependencyUpgrade objects [a; b] "lodash" "4.17.21"
  = [a]
  /\ exists manifest current,
       Packages.manifest_of objects a = Some manifest
       /\ current ≠ "4.17.21"
       /\ (declares (dependencies manifest) "lodash" current
           \/ declares (devDependencies manifest) "lodash" current).
Proof.
  split; [vm_compute; reflexivity |].
  apply (proj1 (proj2 (repositoriesByDependencyUpgrade_includes_outdated
                         [Scenario.lodash_manifest "o/a";
                          {| manifest_name := "o/b"; dependencies := Some ∅;
                             devDependencies := None |}]
                         [] "lodash" "4.17.21"))).
  eexists. vm_compute. reflexivity.
Defined.

(** ** Entities and the manifest they refer to *)

(** The manifest after [packageDef.dependencies[packageName] =
    packageVersion] or the same assignment on [devDependencies]. *)
Definition with_dependency (dev : bool) (packageName packageVersion : string)
  (declared : gmap string string) (object : Manifest) : Manifest :=
  if dev then
    {| manifest_name := manifest_name object;
       dependencies := dependencies object;
       devDependencies := Some (<[packageName:=packageVersion]> declared) |}
  else
    {| manifest_name := manifest_name object;
       dependencies := Some (<[packageName:=packageVersion]> declared);
       devDependencies := devDependencies object |}.

(** Going through a run by cases on what the environment answers. *)
Ltac answer env :=
  repeat (simpl;
          match goal with
          | |- context [respond env ?observed ?op] =>
              destruct (respond env observed op)
          | |- context [dependencyRelationship ?r] =>
              destruct (dependencyRelationship r)
          | |- context [match ?x with Some _ => _ | None => _ end] =>
              destruct x
          end).

(** [commitUpdates] assigns to no manifest object. *)
Lemma commitUpdates_assigns_nothing (env : Env) (action : string)
  (options : Options) (repository : RepositoryEntity) (branchName : string)
  (packageDef : loc)
  (generator : string -> string -> option string -> AsyncOp string)
  (w : World) :
  heap (snd (exec env
               (commitUpdates action Adapter.any options repository branchName
                  packageDef (fun t m r => await (generator t m r))) w))
  = heap w.
Proof.
  unfold commitUpdates, regenerate_lockfile, getCommitMessage, getPullRequest,
    getDepString.
  simpl. destruct (heap w !! packageDef) as [object |]; simpl; [| reflexivity].
  destruct (respond env (log w) (formatPackage object)); simpl;
    [reflexivity |].
  destruct (noLockfile options), (noPullRequest options),
    (bool_decide (action = ACTION)); answer env; reflexivity.
Qed.

(** C3, counterexample.  The manifest reached from the entity that
    [updateRepository] received is not the same after the call: for the
    repository [o/a], which declares [lodash 4.17.0], it declares
    [lodash 4.17.21] afterwards. *)
Lemma updateRepository_changes_the_received_entity :
  ~ (forall (env : Env) (adapter : Adapter.t) (repo : RepositoryEntity)
       (packageName packageVersion : string) (options : Options) (w : World),
       Packages.manifest_of
         (heap (snd (exec env (updateRepository adapter repo packageName
                                 packageVersion options) w))) repo
       = Packages.manifest_of (heap w) repo).
Proof.
  intros H.
  specialize (H Scenario.all_well Adapter.any (Scenario.repo "a") "lodash"
                "4.17.21" Scenario.three_repos Scenario.one_manifest).
  apply (f_equal (fun o => match o with
                           | Some {| dependencies := Some declared |} =>
                               declared !! "lodash"
                           | _ => None
                           end)) in H.
  vm_compute in H. discriminate H.
Qed.

(** C3, as amended.  The manifest-mutation step of the single-package
    pipeline assigns in place: after [updateRepository] the heap differs
    from the heap before in the manifest object of the received entity
    and nowhere else, and that object differs in the entry of
    [packageName] in [devDependencies] (type ["dev"]) or [dependencies]
    (any other type), which is [packageVersion].  The steps that follow
    in [commitUpdates] assign to no manifest object; what they change of
    a repository ([lockfileEntity]) they change in a new record. *)
Theorem updateRepository_assigns_in_place
  (env : Env) (adapter : Adapter.t) (repo : RepositoryEntity)
  (pd : PackageDefinition) (rel : DependencyRelationship) (object : Manifest)
  (declared : gmap string string) (packageName packageVersion : string)
  (options : Options) (w : World) :
  packageDefinition repo = Some pd ->
  dependencyRelationship repo = Some rel ->
  heap w !! decoded pd = Some object ->
  (if bool_decide (type rel = "dev") then devDependencies object
   else dependencies object) = Some declared ->
  heap (snd (exec env (updateRepository adapter repo packageName packageVersion
                         options) w))
  = <[decoded pd :=
        with_dependency (bool_decide (type rel = "dev")) packageName
          packageVersion declared object]> (heap w)
  /\ forall (action branchName : string) (packageDef : loc)
       (generator : string -> string -> option string -> AsyncOp string)
       (w0 : World),
       heap (snd (exec env
                    (commitUpdates action Adapter.any options repo branchName
                       packageDef (fun t m r => await (generator t m r))) w0))
       = heap w0.
Proof.
  intros Hpd Hrel Hobject Hdeclared. split.
  - unfold updateRepository, set_dependency, with_dependency.
    rewrite Hpd, Hrel. simpl. rewrite Hobject. simpl.
    destruct (bool_decide (type rel = "dev")); rewrite Hdeclared; simpl.
    + unfold spawn, commitUpdates. simpl.
      rewrite list_lookup_insert_eq by (eapply lookup_lt_Some, Hobject).
      reflexivity.
    + unfold spawn, commitUpdates. simpl.
      rewrite list_lookup_insert_eq by (eapply lookup_lt_Some, Hobject).
      reflexivity.
  - intros action branchName packageDef generator w0.
    apply commitUpdates_assigns_nothing.
Qed.

Lemma updateRepository_assigns_in_place_witness :
  heap (snd (exec Scenario.all_well
               (updateRepository Adapter.any (Scenario.repo "a") "lodash"
                  "4.17.21" Scenario.three_repos) Scenario.one_manifest))
  = [{| manifest_name := "o/a";
        dependencies := Some (<["lodash":="4.17.21"]> {[ "lodash" := "4.17.0" ]});
        devDependencies := None |}]
  /\ forall (action branchName : string) (packageDef : loc)
       (generator : string -> string -> option string -> AsyncOp string)
       (w0 : World),
       heap (snd (exec Scenario.all_well
                    (commitUpdates action Adapter.any Scenario.three_repos
                       (Scenario.repo "a") branchName packageDef
                       (fun t m r => await (generator t m r))) w0))
       = heap w0.
Proof.
  exact (@updateRepository_assigns_in_place Scenario.all_well Adapter.any
           (Scenario.repo "a") _ _ (Scenario.lodash_manifest "o/a")
           {[ "lodash" := "4.17.0" ]} "lodash" "4.17.21" Scenario.three_repos
           Scenario.one_manifest eq_refl eq_refl eq_refl eq_refl).
Defined.

(** ** The order of the steps *)

Inductive Step : Type :=
| MutateManifest
| Format
| FetchLockfile
| GenerateLockfile
| CreateBranch
| Commit
| OpenPullRequest.

(** The step of the pipeline an event belongs to, for an adapter whose
    methods are calls answered by the environment. *)
Definition step_of (ev : Event) : option Step :=
  match ev with
  | Assigned _ _ => Some MutateManifest
  | Called op =>
      match op with
      | formatPackage _ => Some Format
      | any_fetchLockfileDefinition _ => Some FetchLockfile
      | lockfile_create _ _ _ => Some GenerateLockfile
      | lockfile_update _ _ _ => Some GenerateLockfile
      | any_createBranch _ _ => Some CreateBranch
      | any_commitPackageDefinition _ _ _ _ _ => Some Commit
      | any_createPullRequest _ _ _ => Some OpenPullRequest
      | _ => None
      end
  | _ => None
  end.


Definition pipeline (single : bool) (repository : RepositoryEntity)
  (packageName packageVersion : string) (options : Options) : Async unit :=
  if single
  then updateRepository Adapter.any repository packageName packageVersion options
  else updateRepositoryAll Adapter.any repository options.



Arguments commitUpdates : simpl never.




(** The first statements of [updateRepository], and what it leaves
    behind when it returns. *)
Definition updated (repo : RepositoryEntity) (pd : PackageDefinition)
  (dev : bool) (packageName packageVersion : string)
  (declared : gmap string string) (object : Manifest) (w : World) : World :=
  let object' :=
    with_dependency dev packageName packageVersion declared object in
  emit (Assigned (decoded pd) object')
    (set_heap (<[decoded pd:=object']> (heap w))
       (emit (Notified ACTION ("Updating " +:+ fullName repo)) w)).

Lemma exec_updateRepository (env : Env) (adapter : Adapter.t)
  (repo : RepositoryEntity) (pd : PackageDefinition)
  (rel : DependencyRelationship) (object : Manifest)
  (declared : gmap string string) (packageName packageVersion : string)
  (options : Options) (w : World) :
  packageDefinition repo = Some pd ->
  dependencyRelationship repo = Some rel ->
  heap w !! decoded pd = Some object ->
  (if bool_decide (type rel = "dev") then devDependencies object
   else dependencies object) = Some declared ->
  exec env (updateRepository adapter repo packageName packageVersion options) w
  = (Returned tt,
     spawn env
       (commitUpdates ACTION adapter options repo
          ("turnup/" +:+ packageName +:+ "@" +:+ packageVersion) (decoded pd)
          (fun text manager reg => await (lockfile_create text manager reg)))
       (updated repo pd (bool_decide (type rel = "dev")) packageName
          packageVersion declared object w)).
Proof.
  intros Hpd Hrel Hobject Hdeclared.
  unfold updateRepository, set_dependency, updated, with_dependency.
  rewrite Hpd, Hrel. simpl. rewrite Hobject. simpl.
  destruct (bool_decide (type rel = "dev")); rewrite Hdeclared; reflexivity.
Qed.




Example every_step_once :
  omap step_of
    (log (snd (run Scenario.with_lockfile 6
                 (pipeline true (Scenario.repo "a") "lodash" "4.17.21"
                    Scenario.everything_enabled) Scenario.one_manifest)))
  = [MutateManifest; Format; FetchLockfile; GenerateLockfile; CreateBranch;
     Commit; OpenPullRequest].
Proof. vm_compute. reflexivity. Qed.

(** * Further properties of the code *)

(** ** The reduction of [fetchRepositories] *)

Lemma keep_first_prefix (reduction : list RepositoryEntity)
  (value : RepositoryEntity) :
  reduction `prefix_of` keep_first reduction value.
Proof.
  unfold keep_first.
  destruct (list_find _ reduction); [reflexivity | apply prefix_app_r].
  reflexivity.
Qed.

Lemma foldl_keep_first_prefix (repositories reduction : list RepositoryEntity) :
  reduction `prefix_of` foldl keep_first reduction repositories.
Proof.
  revert reduction.
  induction repositories as [| value repositories IH]; intros reduction; simpl.
  - reflexivity.
  - etrans; [apply keep_first_prefix | apply IH].
Qed.

Lemma foldl_keep_first_distinct (repositories reduction : list RepositoryEntity) :
  NoDup (fullName <$> reduction ++ repositories) ->
  foldl keep_first reduction repositories = reduction ++ repositories.
Proof.
  revert reduction.
  induction repositories as [| value repositories IH]; intros reduction H; simpl.
  - rewrite app_nil_r. reflexivity.
  - assert (keep_first reduction value = reduction ++ [value]) as ->.
    { unfold keep_first.
      destruct (list_find (fun repo => fullName repo = fullName value) reduction)
        as [[i y] |] eqn:Hfind; [| reflexivity].
      apply list_find_Some in Hfind as (Hi & Hy & _).
      apply list_elem_of_lookup_2 in Hi.
      rewrite fmap_app in H. apply NoDup_app in H as (_ & Hdisjoint & _).
      destruct (Hdisjoint (fullName y)).
      - apply list_elem_of_fmap_2. exact Hi.
      - rewrite Hy. simpl. left. }
    rewrite IH; rewrite <- app_assoc; [reflexivity | exact H].
Qed.

(** X1.  The reduction of [fetchRepositories] changes nothing when it is
    applied a second time, it keeps the first entity discovered in first
    place, and it yields the empty list for the empty list only. *)
Theorem unique_by_fullName_idempotent (repositories : list RepositoryEntity) :
  unique_by_fullName (unique_by_fullName repositories)
  = unique_by_fullName repositories
  /\ head (unique_by_fullName repositories) = head repositories
  /\ (unique_by_fullName repositories = [] <-> repositories = []).
Proof.
  split; [| split].
  - unfold unique_by_fullName at 1.
    apply (foldl_keep_first_distinct (unique_by_fullName repositories) []).
    exact (kept_unique (unique_by_fullName_Kept repositories)).
  - destruct repositories as [| first others]; [reflexivity |].
    destruct (foldl_keep_first_prefix others (keep_first [] first))
      as [rest Hrest].
    unfold unique_by_fullName. cbn [foldl]. rewrite Hrest. reflexivity.
  - split; [| intros ->; reflexivity].
    destruct repositories as [| first others]; [reflexivity |].
    destruct (foldl_keep_first_prefix others (keep_first [] first))
      as [rest Hrest].
    unfold unique_by_fullName. cbn [foldl]. rewrite Hrest. discriminate.
Qed.

(** X2.  A list in which no two entities have the same [fullName] goes
    through the reduction unchanged. *)
Theorem unique_by_fullName_distinct (repositories : list RepositoryEntity) :
  NoDup (fullName <$> repositories) ->
  unique_by_fullName repositories = repositories.
Proof. exact (foldl_keep_first_distinct repositories []). Qed.

Lemma unique_by_fullName_distinct_witness :
  unique_by_fullName (Scenario.found <$> ["a"; "b"; "x"])
  = Scenario.found <$> ["a"; "b"; "x"].
Proof.
  apply unique_by_fullName_distinct.
  apply (bool_decide_unpack _). vm_compute. exact I.
Defined.

(** ** The two writes of the commit *)

Definition write_lockfile (repository : RepositoryEntity)
  (rel : DependencyRelationship) (branchName remoteSha lockFile : string)
  : AsyncOp unit :=
  createContents (fullName repository) branchName "package-lock.json" remoteSha
    lockFile
    ("[turnup] Auto update of " +:+ type rel +:+ " dependency "
     +:+ packageName rel +:+ "@" +:+ packageVersion rel
     +:+ " - package-lock.json").

(** X3.  [commitPackageDefinition] with a regenerated lockfile whose
    remote counterpart exists: [package.json] is written first; the
    lockfile is written after it, against the hash of the remote
    lockfile, and only when the first write succeeded.  Without a
    regenerated lockfile the remote lockfile is not looked for and
    [package.json] is the only write. *)
Theorem commitPackageDefinition_manifest_then_lockfile
  (env : Env) (repository : RepositoryEntity) (pd : PackageDefinition)
  (rel : DependencyRelationship) (branchName text message : string)
  (w : World) :
  packageDefinition repository = Some pd ->
  dependencyRelationship repository = Some rel ->
  let first := write_manifest repository pd rel branchName text in
  (forall (lockFile : string) (remote : Contents),
     respond env (log w) (probe_lockfile repository) = inr remote ->
     let second :=
       write_lockfile repository rel branchName (contents_sha remote) lockFile in
     let probed := emit (Called (probe_lockfile repository)) w in
     let written := emit (Called first) probed in
     exec env
       (GitHub.commitPackageDefinition repository branchName text
          (Some lockFile) message) w =
     match respond env (log probed) first with
     | inl failure => (Thrown failure, written)
     | inr _ =>
         (match respond env (log written) second with
          | inl failure => Thrown failure
          | inr _ => Returned tt
          end, emit (Called second) written)
     end)
  /\ exec env
       (GitHub.commitPackageDefinition repository branchName text None message)
       w =
     (match respond env (log w) first with
      | inl failure => Thrown failure
      | inr _ => Returned tt
      end, emit (Called first) w).
Proof.
  intros Hpd Hrel first. subst first. split.
  - intros lockFile remote Hprobe second probed written.
    subst second probed written.
    unfold GitHub.commitPackageDefinition, write_manifest, write_lockfile.
    rewrite Hpd, Hrel. simpl.
    unfold probe_lockfile in Hprobe. rewrite Hprobe. simpl.
    destruct (respond env _ (createContents _ _ "package.json" _ _ _));
      simpl; [reflexivity |].
    destruct (respond env _ (createContents _ _ "package-lock.json" _ _ _));
      reflexivity.
  - unfold GitHub.commitPackageDefinition, write_manifest.
    rewrite Hpd, Hrel. simpl.
    destruct (respond env _ (createContents _ _ _ _ _ _)); reflexivity.
Qed.

Lemma commitPackageDefinition_manifest_then_lockfile_witness :
  exec Scenario.all_well
    (GitHub.commitPackageDefinition (Scenario.repo "a") "turnup/lodash@4.17.21"
       "text" None "message") empty_world
  = (Returned tt,
     emit (Called (write_manifest (Scenario.repo "a")
                     {| decoded := 0; sha := "s1" |}
                     {| type := "prod"; packageName := "lodash";
                        packageVersion := "4.17.21";
                        currentVersion := "4.17.0" |}
                     "turnup/lodash@4.17.21" "text")) empty_world).
Proof.
  exact (proj2 (@commitPackageDefinition_manifest_then_lockfile
                  Scenario.all_well (Scenario.repo "a") _ _
                  "turnup/lodash@4.17.21" "text" "message" empty_world
                  eq_refl eq_refl)).
Defined.

(** ** The ways [update] and [updateAll] end early *)

(** X4.  When the package string cannot be parsed, [update] reports the
    error as fatal and has called nothing else: no adapter method, no
    prompt. *)
Theorem update_parse_failure_is_fatal
  (env : Env) (packageString : string) (adapter : Adapter.t)
  (options : Options) (err : JsError) (w : World) :
  let announced :=
    emit (Notified ACTION ("Using adapter " +:+ Adapter.getName adapter +:+ "."))
      w in
  respond env (log announced) (parsePackage packageString) = inl err ->
  exec env (update packageString adapter options) w
  = (Exited,
     emit (Exit ACTION err) (emit (Called (parsePackage packageString)) announced)).
Proof.
  intros announced Hparse. subst announced. unfold update. simpl.
  simpl in Hparse. rewrite Hparse. reflexivity.
Qed.

(** No package string is accepted. *)
Definition nothing_parses : Env :=
  {| respond := fun B _ op =>
       match op in AsyncOp T return JsError + T with
       | parsePackage _ => inl (Failure "Invalid package string")
       | other => Scenario.quiet other
       end;
     parse := fun text => inr (Scenario.lodash_manifest text) |}.

Lemma update_parse_failure_is_fatal_witness :
  fst (exec nothing_parses (update "@" GitHub.adapter Scenario.three_repos)
         empty_world)
  = Exited.
Proof.
  exact (f_equal fst
           (@update_parse_failure_is_fatal nothing_parses "@" GitHub.adapter
              Scenario.three_repos (Failure "Invalid package string")
              empty_world eq_refl)).
Defined.

(** No names, and no owner or the empty string as owner. *)
Definition nothing_to_gather (options : Options) : Prop :=
  repos options = [] /\ (owner options = None \/ owner options = Some "").

(** X5.  With no repository name and no owner (the empty string counts
    as none), neither flow calls a method of the adapter: gathering
    yields the empty list, and the run is reported as fatal with
    [NoRepositoriesFoundError]; in [update] this comes right after the
    package string is parsed. *)
Theorem nothing_to_gather_is_fatal
  (env : Env) (adapter : Adapter.t) (options : Options) (w : World) :
  nothing_to_gather options ->
  exec env (fetchRepositories adapter options) w = (Returned [], w)
  /\ exec env (updateAll adapter options) w
     = (Exited,
        emit (Exit ALL_ACTION NoRepositoriesFoundError)
          (emit (Notified ALL_ACTION
                   ("Using adapter " +:+ Adapter.getName adapter +:+ ".")) w))
  /\ forall (packageString : string) (parsedPackage : string * string),
       let announced :=
         emit (Notified ACTION
                 ("Using adapter " +:+ Adapter.getName adapter +:+ ".")) w in
       respond env (log announced) (parsePackage packageString)
       = inr parsedPackage ->
       exec env (update packageString adapter options) w
       = (Exited,
          emit (Exit ACTION NoRepositoriesFoundError)
            (emit (Called (parsePackage packageString)) announced)).
Proof.
  intros [Hrepos Howner].
  assert (forall w0, exec env (fetchRepositories adapter options) w0
                     = (Returned [], w0)) as Hgather.
  { intros w0. unfold fetchRepositories, discovered. rewrite Hrepos.
    destruct Howner as [-> | ->]; reflexivity. }
  split; [apply Hgather |]. split.
  - unfold updateAll, updateAll_selection. simpl.
    rewrite exec_try_catch, !exec_bind, Hgather. reflexivity.
  - intros packageString parsedPackage announced Hparse. subst announced.
    unfold update, update_selection. simpl. simpl in Hparse. rewrite Hparse.
    simpl. rewrite exec_try_catch, !exec_bind, Hgather. reflexivity.
Qed.

Lemma nothing_to_gather_is_fatal_witness :
  let options :=
    {| repos := []; owner := Some ""; noLockfile := false;
       noPullRequest := false; continue := false; registry := None |} in
  exec Scenario.all_well (fetchRepositories GitHub.adapter options) empty_world
  = (Returned [], empty_world).
Proof.
  exact (proj1 (@nothing_to_gather_is_fatal Scenario.all_well GitHub.adapter
                  {| repos := []; owner := Some ""; noLockfile := false;
                     noPullRequest := false; continue := false;
                     registry := None |}
                  empty_world (conj eq_refl (or_intror eq_refl)))).
Defined.

(** ** What [updateRepository] needs *)

(** The repository has no manifest, or no relationship, or its manifest
    has not the dependency map its relationship points to. *)
Definition cannot_be_updated (objects : list Manifest) (repo : RepositoryEntity)
  : Prop :=
  packageDefinition repo = None
  \/ dependencyRelationship repo = None
  \/ exists pd rel object,
       packageDefinition repo = Some pd
       /\ dependencyRelationship repo = Some rel
       /\ objects !! decoded pd = Some object
       /\ (if bool_decide (type rel = "dev") then devDependencies object
           else dependencies object) = None.

(** X6.  When the repository has no [packageDefinition], no
    [dependencyRelationship], or a manifest without the dependency map
    to assign into, [updateRepository] throws a [TypeError] after its
    notice: no manifest is assigned to, and no pipeline is started.  The
    same holds for [updateRepositoryAll] and a repository without
    [packageDefinition]. *)
Theorem updateRepository_throws_before_assigning
  (env : Env) (adapter : Adapter.t) (repo : RepositoryEntity)
  (packageName packageVersion : string) (options : Options) (w : World) :
  (cannot_be_updated (heap w) repo ->
   exists reason,
     exec env (updateRepository adapter repo packageName packageVersion options)
       w
     = (Thrown (TypeError reason),
        emit (Notified ACTION ("Updating " +:+ fullName repo)) w))
  /\ (packageDefinition repo = None ->
      exists reason,
        exec env (updateRepositoryAll adapter repo options) w
        = (Thrown (TypeError reason),
           emit (Notified ALL_ACTION
                   ("Running npm update against " +:+ fullName repo)) w)).
Proof.
  split.
  - unfold updateRepository, set_dependency.
    intros [Hpd | [Hrel | (pd & rel & object & Hpd & Hrel & Hobject & Hmap)]].
    + rewrite Hpd. simpl. eexists. reflexivity.
    + rewrite Hrel. destruct (packageDefinition repo); simpl;
        eexists; reflexivity.
    + rewrite Hpd, Hrel. simpl. rewrite Hobject. simpl.
      destruct (bool_decide (type rel = "dev")); rewrite Hmap; simpl;
        eexists; reflexivity.
  - intros Hpd. unfold updateRepositoryAll. rewrite Hpd. simpl.
    eexists. reflexivity.
Qed.

Lemma updateRepository_throws_before_assigning_witness :
  exists reason,
    exec Scenario.all_well
      (updateRepository GitHub.adapter (Scenario.found "a") "lodash" "4.17.21"
         Scenario.three_repos) empty_world
    = (Thrown (TypeError reason),
       emit (Notified ACTION ("Updating " +:+ fullName (Scenario.found "a")))
         empty_world).
Proof.
  exact (proj1 (updateRepository_throws_before_assigning Scenario.all_well
                  GitHub.adapter (Scenario.found "a") "lodash" "4.17.21"
                  Scenario.three_repos empty_world)
           (or_introl eq_refl)).
Defined.

(** ** A manifest that does not parse *)

Lemma all_settled_returns (env : Env) (A : Type) (ps : list (Async A)) :
  Forall (fun p => forall w, fst (exec env p w) <> Exited) ps ->
  forall w, exists rs w',
    exec env (all_settled ps) w = (Returned rs, w') /\ length rs = length ps.
Proof.
  induction 1 as [| p ps Hp _ IH]; intros w; simpl.
  - exists [], w. split; reflexivity.
  - rewrite exec_bind, exec_settle. specialize (Hp w).
    destruct (exec env p w) as [[a | err |] w1]; simpl in *;
      try (destruct Hp; reflexivity);
      destruct (IH w1) as (rs & w' & Hrs & Hlen);
      rewrite exec_bind, Hrs; simpl;
      eexists (_ :: rs), w'; (split; [reflexivity | simpl; congruence]).
Qed.

Lemma getPackageJson_goes_on (env : Env) (repository : RepositoryEntity)
  (w : World) :
  fst (exec env (GitHub.getPackageJson repository) w) <> Exited.
Proof.
  unfold GitHub.getPackageJson. simpl.
  destruct (respond env _ _) as [err | contents]; simpl; [discriminate |].
  destruct (parse env (content contents)); simpl; discriminate.
Qed.

(** X7.  When the [package.json] of the first repository is delivered
    but is not valid JSON, [fetchPackageDefinitions] rejects as a whole,
    in both versions of the adapter: the tolerance of the unnamed file
    is for status 404 only.  When that repository is the only one, the
    rejection is the [SyntaxError] of the parser. *)
Theorem malformed_manifest_rejects_the_fetch
  (env : Env) (repository : RepositoryEntity)
  (others : list RepositoryEntity) (contents : Contents) (message : string)
  (w : World) :
  respond env (log w) (getContents (fullName repository) "package.json")
  = inr contents ->
  parse env (content contents) = inl (SyntaxError message) ->
  (exists err,
      fst (exec env (GitHub.fetchPackageDefinitions (repository :: others)) w)
      = Thrown err
      /\ (others = [] -> err = SyntaxError message))
  /\ (exists err,
         fst (exec env
                (AdapterJs.fetchPackageDefinitions (repository :: others)) w)
         = Thrown err
         /\ (others = [] -> err = SyntaxError message)).
Proof.
  intros Hcontents Hparse.
  split; exists (SyntaxError message); (split; [| reflexivity]).
  - unfold GitHub.fetchPackageDefinitions, promise_all.
    rewrite exec_bind. cbn [fmap list_fmap all_settled].
    match goal with
    | |- context [all_settled ?ps] =>
        assert (Forall (fun p => forall w0, fst (exec env p w0) <> Exited) ps)
          as Hgo; [| set (tail := all_settled ps) in *]
    end.
    2: { rewrite exec_bind, exec_settle, exec_try_catch, exec_bind.
         unfold GitHub.getPackageJson. simpl.
         rewrite Hcontents. simpl. rewrite Hparse. simpl.
         rewrite exec_bind.
         destruct (@all_settled_returns env _ _ Hgo
                     (emit (Called (getContents (fullName repository)
                                      "package.json")) w))
           as (rs & w' & Hrs & _).
         fold tail in Hrs. rewrite Hrs. reflexivity. }
    { apply Forall_fmap, Forall_forall. intros r _ w0. cbv beta.
      unfold compose. rewrite exec_try_catch, exec_bind.
      pose proof (getPackageJson_goes_on env r w0) as Hgo.
      destruct (exec env (GitHub.getPackageJson r) w0) as [[pd | err |] w1];
        simpl in *; [discriminate | | destruct Hgo; reflexivity].
      destruct (bool_decide (statusCode err = Some 404)); discriminate. }
  - unfold AdapterJs.fetchPackageDefinitions, promise_all.
    rewrite exec_bind. cbn [fmap list_fmap all_settled].
    match goal with
    | |- context [all_settled ?ps] =>
        assert (Forall (fun p => forall w0, fst (exec env p w0) <> Exited) ps)
          as Hgo; [| set (tail := all_settled ps) in *]
    end.
    2: { rewrite exec_bind, exec_settle, exec_bind.
         unfold GitHub.getPackageJson. simpl.
         rewrite Hcontents. simpl. rewrite Hparse. simpl.
         rewrite exec_bind.
         destruct (@all_settled_returns env _ _ Hgo
                     (emit (Called (getContents (fullName repository)
                                      "package.json")) w))
           as (rs & w' & Hrs & _).
         fold tail in Hrs. rewrite Hrs. reflexivity. }
    { apply Forall_fmap, Forall_forall. intros r _ w0. cbv beta.
      unfold compose. rewrite exec_bind.
      pose proof (getPackageJson_goes_on env r w0) as Hgo.
      destruct (exec env (GitHub.getPackageJson r) w0) as [[pd | err |] w1];
        simpl in *; [discriminate | discriminate | destruct Hgo; reflexivity]. }
Qed.

(** The text delivered for any [package.json] is not JSON. *)
Definition nothing_is_json : Env :=
  {| respond := fun B _ op => Scenario.quiet op;
     parse := fun text => inl (SyntaxError "Unexpected token") |}.

Lemma malformed_manifest_rejects_the_fetch_witness :
  fst (exec nothing_is_json
         (GitHub.fetchPackageDefinitions [Scenario.found "a"]) empty_world)
  = Thrown (SyntaxError "Unexpected token")
  /\ fst (exec nothing_is_json
            (AdapterJs.fetchPackageDefinitions [Scenario.found "a"])
            empty_world)
     = Thrown (SyntaxError "Unexpected token").
Proof.
  destruct (@malformed_manifest_rejects_the_fetch nothing_is_json
              (Scenario.found "a") []
              {| content := "o/a"; contents_sha := "s1" |} "Unexpected token"
              empty_world eq_refl eq_refl)
    as [(err & Hthrown & Herr) (err' & Hthrown' & Herr')].
  rewrite (Herr eq_refl) in Hthrown. rewrite (Herr' eq_refl) in Hthrown'.
  split; [exact Hthrown | exact Hthrown'].
Defined.

(** ** Fetching repositories by name *)

Definition asked (names : list string) : list Event :=
  (fun n => Called (getRepo n)) <$> names.

(** What the service answers to the requests for [names], made in this
    order after [observed]. *)
Fixpoint answers (env : Env) (observed : list Event) (names : list string)
  : list (JsError + RawRepo) :=
  match names with
  | [] => []
  | n :: rest =>
      respond env observed (getRepo n)
      :: answers env (observed ++ [Called (getRepo n)]) rest
  end.

Lemma answers_lookup (env : Env) (names : list string) :
  forall (observed : list Event) (i : nat) (n : string),
    names !! i = Some n ->
    answers env observed names !! i
    = Some (respond env (observed ++ asked (take i names)) (getRepo n)).
Proof.
  induction names as [| m names IH]; intros observed i n Hi; [discriminate |].
  destruct i as [| i]; simpl in *.
  - injection Hi as ->. rewrite app_nil_r. reflexivity.
  - rewrite (IH _ _ _ Hi). unfold asked. simpl.
    rewrite <- app_assoc. reflexivity.
Qed.

Lemma answers_length (env : Env) (names : list string) :
  forall observed, length (answers env observed names) = length names.
Proof.
  induction names as [| m names IH]; intros observed; simpl;
    [| rewrite IH]; reflexivity.
Qed.

Lemma exec_all_settled_fetchRepository (env : Env) (names : list string) :
  forall w,
    exec env (all_settled (GitHub.fetchRepository <$> names)) w
    = (Returned (answers env (log w) names),
       {| heap := heap w; log := log w ++ asked names; pool := pool w;
          unhandled := unhandled w |}).
Proof.
  induction names as [| n names IH]; intros w.
  - simpl. rewrite app_nil_r. destruct w; reflexivity.
  - cbn [fmap list_fmap all_settled answers].
    rewrite exec_bind, exec_settle. unfold GitHub.fetchRepository at 1.
    rewrite exec_await.
    destruct (respond env (log w) (getRepo n)) as [err | raw]; simpl;
      rewrite exec_bind, IH; simpl; unfold asked; simpl;
      rewrite <- app_assoc; reflexivity.
Qed.

(** X8.  [fetchRepositories] of the adapter requests every name, once
    and in the order given, also when some request fails, and touches no
    manifest.  When it returns, the result has one entity per name, in
    the same order, made from what the service answered for that name,
    with neither manifest nor relationship nor lockfile. *)
Theorem fetchRepositories_requests_every_name
  (env : Env) (names : list string) (w : World) :
  let result := exec env (GitHub.fetchRepositories names) w in
  log (snd result) = log w ++ asked names
  /\ heap (snd result) = heap w
  /\ forall l,
       fst result = Returned l ->
       length l = length names
       /\ forall i n,
            names !! i = Some n ->
            exists raw,
              respond env (log w ++ asked (take i names)) (getRepo n) = inr raw
              /\ l !! i
                 = Some {| name := raw_name raw; fullName := full_name raw;
                           defaultBranch := default_branch raw;
                           packageDefinition := None;
                           dependencyRelationship := None;
                           lockfileEntity := None |}.
Proof.
  intros result. subst result.
  unfold GitHub.fetchRepositories, promise_all.
  rewrite !exec_bind, exec_all_settled_fetchRepository. simpl.
  destruct (collect (answers env (log w) names)) as [err | raws] eqn:Hcollect;
    simpl; (split; [reflexivity |]); (split; [reflexivity |]);
    intros l Hl; [discriminate |].
  injection Hl as <-. apply collect_values in Hcollect.
  split.
  - rewrite length_fmap. rewrite <- (answers_length env names (log w)).
    rewrite Hcollect, length_fmap. reflexivity.
  - intros i n Hi.
    pose proof (answers_lookup env names (log w) i Hi) as Hanswer.
    rewrite Hcollect, list_lookup_fmap in Hanswer.
    destruct (raws !! i) as [raw |] eqn:Hraw; [| discriminate].
    injection Hanswer as Hanswer. exists raw. split; [congruence |].
    rewrite list_lookup_fmap, Hraw. reflexivity.
Qed.

Lemma fetchRepositories_requests_every_name_witness :
  length (Scenario.found <$> ["a"; "b"; "c"]) = length ["a"; "b"; "c"]
  /\ forall i n,
       ["a"; "b"; "c"] !! i = Some n ->
       exists raw,
         respond Scenario.all_well
           (log empty_world ++ asked (take i ["a"; "b"; "c"])) (getRepo n)
         = inr raw
         /\ (Scenario.found <$> ["a"; "b"; "c"]) !! i
            = Some {| name := raw_name raw; fullName := full_name raw;
                      defaultBranch := default_branch raw;
                      packageDefinition := None;
                      dependencyRelationship := None;
                      lockfileEntity := None |}.
Proof.
  exact (proj2 (proj2 (fetchRepositories_requests_every_name Scenario.all_well
                         ["a"; "b"; "c"] empty_world))
           (Scenario.found <$> ["a"; "b"; "c"]) eq_refl).
Defined.

(** ** Manifest objects made by the fetch *)

(** [y] is [r] as it was, or [r] with a manifest object made between the
    states [w] and [w']. *)
Definition as_fetched (w w' : World) (r y : RepositoryEntity) : Prop :=
  y = r
  \/ exists pd,
       y = set_packageDefinition pd r
       /\ length (heap w) <= decoded pd < length (heap w').

Lemma all_settled_as_fetched (env : Env)
  (f : RepositoryEntity -> Async RepositoryEntity) :
  (forall r w x w',
      exec env (settle (f r)) w = (Returned x, w') ->
      heap w `prefix_of` heap w'
      /\ forall y, x = inr y -> as_fetched w w' r y) ->
  forall repositories w xs w',
    exec env (all_settled (f <$> repositories)) w = (Returned xs, w') ->
    heap w `prefix_of` heap w'
    /\ Forall2 (fun r x => forall y, x = inr y -> as_fetched w w' r y)
         repositories xs.
Proof.
  intros Hf repositories.
  induction repositories as [| r repositories IH]; intros w xs w' H.
  - simpl in H. injection H as <- <-. split; [reflexivity | constructor].
  - cbn [fmap list_fmap all_settled] in H.
    apply exec_bind_returned in H as (x & w1 & Hx & H).
    apply exec_bind_returned in H as (rest & w2 & Hrest & H).
    simpl in H. injection H as <- <-.
    apply Hf in Hx as [Hprefix1 Hx].
    apply IH in Hrest as [Hprefix2 Hrest].
    pose proof (prefix_length _ _ Hprefix1) as Hlen1.
    pose proof (prefix_length _ _ Hprefix2) as Hlen2.
    split; [etrans; eassumption |].
    constructor.
    + intros y Hy. destruct (Hx y Hy) as [-> | (pd & -> & Hpd)];
        [left; reflexivity | right; exists pd; split; [reflexivity | lia]].
    + eapply Forall2_impl; [exact Hrest |].
      intros r0 x0 Hx0 y Hy.
      destruct (Hx0 y Hy) as [-> | (pd & -> & Hpd)];
        [left; reflexivity | right; exists pd; split; [reflexivity | lia]].
Qed.

(** X9.  When [fetchPackageDefinitions] of the unnamed file returns, the
    manifest objects that existed before are all still there, unchanged
    (new ones come after them); the result has one entity per repository
    received, in the same order, each either as received or as received
    with a [packageDefinition] whose manifest object was made by this
    call. *)
Theorem fetchPackageDefinitions_makes_new_objects
  (env : Env) (repositories l : list RepositoryEntity) (w w' : World) :
  exec env (GitHub.fetchPackageDefinitions repositories) w = (Returned l, w') ->
  heap w `prefix_of` heap w'
  /\ Forall2 (as_fetched w w') repositories l.
Proof.
  unfold GitHub.fetchPackageDefinitions, promise_all. intros H.
  apply exec_bind_returned in H as (xs & w1 & Hxs & H).
  destruct (collect xs) as [err | l0] eqn:Hcollect; simpl in H;
    [discriminate |].
  injection H as <- <-. apply collect_values in Hcollect as ->.
  apply all_settled_as_fetched in Hxs.
  - destruct Hxs as [Hprefix Hxs]. split; [exact Hprefix |].
    apply Forall2_fmap_r in Hxs.
    eapply Forall2_impl; [exact Hxs |].
    intros r y Hy. apply Hy. reflexivity.
  - clear. intros r w x w' H.
    rewrite exec_settle, exec_try_catch, exec_bind in H.
    unfold GitHub.getPackageJson in H. simpl in H.
    destruct (respond env (log w) (getContents (fullName r) "package.json"))
      as [err | contents]; simpl in H.
    + destruct (bool_decide (statusCode err = Some 404)); simpl in H;
        injection H as <- <-; (split; [reflexivity |]);
        intros y [= <-]. left. reflexivity.
    + destruct (parse env (content contents)) as [err | object]; simpl in H.
      * destruct (bool_decide (statusCode err = Some 404)); simpl in H;
          injection H as <- <-; (split; [reflexivity |]);
          intros y [= <-]. left. reflexivity.
      * injection H as <- <-. simpl. split; [apply prefix_app_r; reflexivity |].
        intros y [= <-]. right. eexists. split; [reflexivity |]. simpl.
        rewrite length_app. simpl. lia.
Qed.

Lemma fetchPackageDefinitions_makes_new_objects_witness :
  let result :=
    exec (Scenario.missing 404 "o/b")
      (GitHub.fetchPackageDefinitions (Scenario.found <$> ["a"; "b"; "c"]))
      empty_world in
  heap empty_world `prefix_of` heap (snd result)
  /\ Forall2 (as_fetched empty_world (snd result))
       (Scenario.found <$> ["a"; "b"; "c"])
       [set_packageDefinition {| decoded := 0; sha := "s1" |} (Scenario.found "a");
        Scenario.found "b";
        set_packageDefinition {| decoded := 1; sha := "s1" |} (Scenario.found "c")].
Proof.
  exact (@fetchPackageDefinitions_makes_new_objects (Scenario.missing 404 "o/b")
           (Scenario.found <$> ["a"; "b"; "c"]) _ empty_world _ eq_refl).
Defined.

(** ** What the single-package pipeline hands to the adapter *)

Ltac go_on env H :=
  repeat (simpl in H;
          match type of H with
          | context [respond env ?observed ?op] =>
              destruct (respond env observed op)
          end);
  simpl in H; try discriminate H.

(** X10.  A run of [commitUpdates] for the single-package action that
    returns, on an adapter with every method.  The text committed is the
    text the formatter answered with.  With [noLockfile] set no lockfile
    is committed.  Otherwise the adapter is asked for the remote
    lockfile after the formatting and the notice: when it answers with
    none, no lockfile is committed; when it answers with [remote], the
    generator is called next, with the formatted text, the package
    manager of [remote] and the registry of the options, and the
    lockfile committed is what the generator answers.  Branch, commit
    and pull request are asked for the repository carrying [remote];
    the commit message names type, package and version of the
    relationship; the pull request handed over has title and body of
    the bulk flow. *)
Theorem commitUpdates_hands_over
  (env : Env) (options : Options) (repository : RepositoryEntity)
  (rel : DependencyRelationship) (branchName : string) (packageDef : loc)
  (object : Manifest) (w w' : World) :
  heap w !! packageDef = Some object ->
  dependencyRelationship repository = Some rel ->
  exec env
    (commitUpdates ACTION Adapter.any options repository branchName packageDef
       (fun t m r => await (lockfile_create t m r))) w
  = (Returned tt, w') ->
  exists (text : string) (found : option (LockfileEntity * string)),
    respond env (log w) (formatPackage object) = inr text
    /\ (let asking :=
          log w ++ [Called (formatPackage object);
                    Notified ACTION "Generating lockfile."] in
        if noLockfile options then found = None
        else
          match found with
          | Some (remote, lock) =>
              respond env asking (any_fetchLockfileDefinition repository)
              = inr (Some remote)
              /\ respond env
                   (asking ++ [Called (any_fetchLockfileDefinition repository)])
                   (lockfile_create text (packageManager remote)
                      (registry options))
                 = inr lock
          | None =>
              respond env asking (any_fetchLockfileDefinition repository)
              = inr None
          end)
    /\ log w'
       = log w
         ++ [Called (formatPackage object)]
         ++ (if noLockfile options then []
             else
               Notified ACTION "Generating lockfile."
               :: Called (any_fetchLockfileDefinition repository)
               :: match found with
                  | Some (remote, _) =>
                      [Called (lockfile_create text (packageManager remote)
                                 (registry options))]
                  | None => []
                  end)
         ++ (let carrying :=
               match found with
               | Some (remote, _) => set_lockfileEntity remote repository
               | None => repository
               end in
             [Notified ACTION "Creating branch.";
              Called (any_createBranch carrying branchName);
              Notified ACTION "Creating commit.";
              Called (any_commitPackageDefinition carrying branchName text
                        (snd <$> found)
                        ("[turnup] Auto update of " +:+ type rel
                         +:+ " dependency " +:+ packageName rel +:+ "@"
                         +:+ packageVersion rel))]
             ++ (if noPullRequest options then []
                 else [Notified ACTION "Creating pull request.";
                       Called (any_createPullRequest carrying branchName
                                 {| body :=
                                      "Update the package.json dependencies within specified range. "
                                      +:+ turnupNotice +:+ LF +:+ LF
                                      +:+ disclaimer;
                                    title := "Update Dependencies" |})])).
Proof.
  intros Hobject Hrel H.
  unfold commitUpdates, regenerate_lockfile, getCommitMessage, getPullRequest,
    getDepString in H.
  simpl in H. rewrite Hobject in H. simpl in H.
  destruct (respond env (log w) (formatPackage object)) as [err | text];
    simpl in H; [discriminate H |].
  exists text.
  assert ((log w ++ [Called (formatPackage object)])
          ++ [Notified ACTION "Generating lockfile."]
          = log w ++ [Called (formatPackage object);
                      Notified ACTION "Generating lockfile."]) as Hasking
    by (rewrite <- app_assoc; reflexivity).
  destruct (noLockfile options) eqn:Hno; simpl in H.
  - exists None. rewrite Hrel in H.
    destruct (noPullRequest options); go_on env H;
      apply (f_equal snd) in H; simpl in H; subst w';
      simpl; rewrite <- !app_assoc;
      (split; [reflexivity |]); split; reflexivity.
  - destruct (respond env _ (any_fetchLockfileDefinition repository))
      as [err | [remote |]] eqn:Hfetch; simpl in H; [discriminate H | |].
    + destruct (respond env _ (lockfile_create _ _ _)) as [err | lock]
        eqn:Hcreate; simpl in H; [discriminate H |].
      exists (Some (remote, lock)). rewrite Hrel in H.
      destruct (noPullRequest options); go_on env H;
        apply (f_equal snd) in H; simpl in H; subst w';
        simpl; (split; [reflexivity |]);
        (split;
         [rewrite <- Hasking; split; [exact Hfetch | exact Hcreate]
         | rewrite <- !app_assoc; reflexivity]).
    + exists None. rewrite Hrel in H.
      destruct (noPullRequest options); go_on env H;
        apply (f_equal snd) in H; simpl in H; subst w';
        simpl; (split; [reflexivity |]);
        (split;
         [rewrite <- Hasking; exact Hfetch
         | rewrite <- !app_assoc; reflexivity]).
Qed.

(** The theorem at a repository with a remote lockfile: what the
    generator answered is what is committed. *)
Lemma commitUpdates_hands_over_witness :
  log (snd (exec Scenario.with_lockfile
              (commitUpdates ACTION Adapter.any Scenario.everything_enabled
                 (Scenario.repo "a") "turnup/lodash@4.17.21" 0
                 (fun t m r => await (lockfile_create t m r)))
              Scenario.one_manifest))
  = (let remote := {| packageManager := "npm"; lockfileContent := "{}" |} in
     let carrying := set_lockfileEntity remote (Scenario.repo "a") in
     [Called (formatPackage (Scenario.lodash_manifest "o/a"));
      Notified ACTION "Generating lockfile.";
      Called (any_fetchLockfileDefinition (Scenario.repo "a"));
      Called (lockfile_create "formatted o/a" "npm" None);
      Notified ACTION "Creating branch.";
      Called (any_createBranch carrying "turnup/lodash@4.17.21");
      Notified ACTION "Creating commit.";
      Called (any_commitPackageDefinition carrying "turnup/lodash@4.17.21"
                "formatted o/a" (Some "lock")
                "[turnup] Auto update of prod dependency lodash@4.17.21");
      Notified ACTION "Creating pull request.";
      Called (any_createPullRequest carrying "turnup/lodash@4.17.21"
                {| body :=
                     "Update the package.json dependencies within specified range. "
                     +:+ turnupNotice +:+ LF +:+ LF +:+ disclaimer;
                   title := "Update Dependencies" |})]).
Proof.
  destruct (@commitUpdates_hands_over Scenario.with_lockfile
              Scenario.everything_enabled (Scenario.repo "a") _
              "turnup/lodash@4.17.21" 0 _ Scenario.one_manifest _
              eq_refl eq_refl eq_refl)
    as (text & found & Htext & Hfound & Hlog).
  injection Htext as <-.
  destruct found as [[remote lock] |]; simpl in Hfound.
  - destruct Hfound as [Hremote Hlock].
    injection Hremote as <-. injection Hlock as <-.
    exact Hlog.
  - discriminate Hfound.
Defined.

(** ** The pipeline on the GitHub adapter *)

(** X11.  With [noLockfile] set, a run of [commitUpdates] on the GitHub
    adapter that returns has made exactly these calls, in this order:
    the formatting; the reading of the head of the default branch; the
    creation of the new branch from the head that reading answered with;
    one write, of [package.json], with the text the formatter answered
    with, against the hash the manifest was fetched with; and, unless
    [noPullRequest] is set, a pull request from the new branch to the
    default branch, with the title and the body the adapter builds from
    package and version.  The lockfile generator is not called and no
    lockfile is looked for; no manifest object changes. *)
Theorem commitUpdates_on_github_without_lockfile
  (env : Env) (action : string) (options : Options)
  (repository : RepositoryEntity) (pd : PackageDefinition)
  (rel : DependencyRelationship) (branchName : string) (packageDef : loc)
  (object : Manifest)
  (create : string -> string -> option string -> Async string)
  (w w' : World) :
  noLockfile options = true ->
  heap w !! packageDef = Some object ->
  packageDefinition repository = Some pd ->
  dependencyRelationship repository = Some rel ->
  exec env
    (commitUpdates action GitHub.adapter options repository branchName
       packageDef create) w
  = (Returned tt, w') ->
  exists (text head : string),
    respond env (log w) (formatPackage object) = inr text
    /\ respond env
         (log w ++ [Called (formatPackage object);
                    Notified action "Creating branch."])
         (getRef (fullName repository) (defaultBranch repository))
       = inr head
    /\ log w'
       = log w
         ++ [Called (formatPackage object);
             Notified action "Creating branch.";
             Called (getRef (fullName repository) (defaultBranch repository));
             Called (createRef (fullName repository) branchName head);
             Notified action "Creating commit.";
             Called (write_manifest repository pd rel branchName text)]
         ++ (if noPullRequest options then []
             else
               let depString :=
                 packageName rel +:+ "@" +:+ packageVersion rel in
               [Notified action "Creating pull request.";
                Called (createPull (fullName repository)
                          (defaultBranch repository) branchName
                          ("Update Dependency - " +:+ depString)
                          ("Update the package.json dependency for `"
                           +:+ depString +:+ "`. " +:+ turnupNotice
                           +:+ LF +:+ LF +:+ disclaimer))])
    /\ heap w' = heap w.
Proof.
  intros Hno Hobject Hpd Hrel H.
  unfold commitUpdates, regenerate_lockfile, getCommitMessage, getPullRequest,
    getDepString, GitHub.adapter, GitHub.createBranch,
    GitHub.commitPackageDefinition, GitHub.createPullRequest, write_manifest
    in *.
  simpl in H. rewrite Hobject in H. simpl in H.
  destruct (respond env (log w) (formatPackage object)) as [err | text];
    simpl in H; [discriminate H |].
  exists text. rewrite Hno in H. simpl in H.
  destruct (respond env _ (getRef _ _)) as [err | head] eqn:Hhead;
    simpl in H; [discriminate H |].
  rewrite <- app_assoc in Hhead. simpl in Hhead.
  exists head. rewrite Hrel, Hpd in H.
  destruct (noPullRequest options), (bool_decide (action = ACTION));
    go_on env H;
    apply (f_equal snd) in H; simpl in H; subst w';
    simpl; rewrite <- ?app_assoc;
    (split; [reflexivity |]); (split; [exact Hhead |]);
    split; reflexivity.
Qed.

(** The theorem for the single-package action at a repository whose
    head reads [head]: the branch is created from it. *)
Lemma commitUpdates_on_github_without_lockfile_witness :
  log (snd (exec Scenario.all_well
              (commitUpdates ACTION GitHub.adapter Scenario.three_repos
                 (Scenario.repo "a") "turnup/lodash@4.17.21" 0
                 create_lockfile)
              Scenario.one_manifest))
  = [Called (formatPackage (Scenario.lodash_manifest "o/a"));
     Notified ACTION "Creating branch.";
     Called (getRef "o/a" "master");
     Called (createRef "o/a" "turnup/lodash@4.17.21" "head");
     Notified ACTION "Creating commit.";
     Called (createContents "o/a" "turnup/lodash@4.17.21" "package.json"
               "s1" "formatted o/a"
               "[turnup] Auto update of prod dependency lodash@4.17.21 - package.json");
     Notified ACTION "Creating pull request.";
     Called (createPull "o/a" "master" "turnup/lodash@4.17.21"
               "Update Dependency - lodash@4.17.21"
               ("Update the package.json dependency for `lodash@4.17.21`. "
                +:+ turnupNotice +:+ LF +:+ LF +:+ disclaimer))].
Proof.
  destruct (@commitUpdates_on_github_without_lockfile Scenario.all_well ACTION
              Scenario.three_repos (Scenario.repo "a") _ _
              "turnup/lodash@4.17.21" 0 _ create_lockfile
              Scenario.one_manifest _ eq_refl eq_refl eq_refl eq_refl eq_refl)
    as (text & head & Htext & Hhead & Hlog & _).
  injection Htext as <-. injection Hhead as <-.
  exact Hlog.
Defined.

(** ** When [updateRepository] resolves *)

(** X12.  For every adapter: when [updateRepository] returns, its
    pipeline has got as far as handing the updated manifest to the
    formatter and no further: the log holds the notice, the assignment
    and the formatting call, no method of the adapter has been called,
    and the rest of the pipeline is one more suspended task that nobody
    awaits. *)
Theorem updateRepository_resolves_at_the_formatting
  (env : Env) (adapter : Adapter.t) (repo : RepositoryEntity)
  (pd : PackageDefinition) (rel : DependencyRelationship) (object : Manifest)
  (declared : gmap string string) (packageName packageVersion : string)
  (options : Options) (w : World) :
  packageDefinition repo = Some pd ->
  dependencyRelationship repo = Some rel ->
  heap w !! decoded pd = Some object ->
  (if bool_decide (type rel = "dev") then devDependencies object
   else dependencies object) = Some declared ->
  let result :=
    exec env (updateRepository adapter repo packageName packageVersion options)
      w in
  let object' :=
    with_dependency (bool_decide (type rel = "dev")) packageName packageVersion
      declared object in
  fst result = Returned tt
  /\ log (snd result)
     = log w ++ [Notified ACTION ("Updating " +:+ fullName repo);
                 Assigned (decoded pd) object';
                 Called (formatPackage object')]
  /\ length (pool (snd result)) = S (length (pool w))
  /\ unhandled (snd result) = unhandled w.
Proof.
  intros Hpd Hrel Hobject Hdeclared result object'. subst result object'.
  erewrite exec_updateRepository;
    [| exact Hpd | exact Hrel | exact Hobject | exact Hdeclared].
  unfold spawn, commitUpdates, updated. simpl.
  rewrite list_lookup_insert_eq by (eapply lookup_lt_Some, Hobject).
  simpl. rewrite <- !app_assoc, length_app. simpl.
  repeat split; try reflexivity; lia.
Qed.

Lemma updateRepository_resolves_at_the_formatting_witness :
  let result :=
    exec Scenario.branch_of_b_fails
      (updateRepository GitHub.adapter (Scenario.repo "a") "lodash" "4.17.21"
         Scenario.three_repos) Scenario.one_manifest in
  let object' :=
    with_dependency false "lodash" "4.17.21" {[ "lodash" := "4.17.0" ]}
      (Scenario.lodash_manifest "o/a") in
  fst result = Returned tt
  /\ log (snd result)
     = [Notified ACTION "Updating o/a"; Assigned 0 object';
        Called (formatPackage object')]
  /\ length (pool (snd result)) = 1
  /\ unhandled (snd result) = [].
Proof.
  exact (@updateRepository_resolves_at_the_formatting
           Scenario.branch_of_b_fails GitHub.adapter (Scenario.repo "a") _ _
           (Scenario.lodash_manifest "o/a") {[ "lodash" := "4.17.0" ]}
           "lodash" "4.17.21" Scenario.three_repos Scenario.one_manifest
           eq_refl eq_refl eq_refl eq_refl).
Defined.
